(** * UriUtil: base-URI candidates, URI builders and origin validation

    A shallow embedding of [frontend/lib/src/util/UriUtil.ts].

    JavaScript strings are modelled as [string]; the only character the
    module ever inspects is the slash, so the encoding of the other
    characters plays no role.  The two platform classes the module uses,
    [URL] and [URLPattern], are not part of the repository: [URL] is
    modelled after the URL Standard for the part the module exercises
    (http and https pages, the [port] and [pathname] setters), and
    [URLPattern] is an interface the validator is parametric in. *)

From Stdlib Require Import Bool List Arith Lia NArith.
From Stdlib Require Import Ascii String.
From Stdlib Require Import DecimalString DecimalPos.
From Equations Require Import Equations.
Import ListNotations.

Local Open Scope string_scope.
Local Open Scope list_scope.

(** ** JavaScript string operations used by the module *)

Module JsString.

Definition slash : ascii := "/"%char.

Definition is_slash (c : ascii) : bool := Ascii.eqb c slash.

(** [s.replace(/^\/+/, "")]: the longest run of slashes at the start of
    [s] is removed. *)
Fixpoint replace_INITIAL_SLASH_RE (s : string) : string :=
  match s with
  | EmptyString => EmptyString
  | String c r => if is_slash c then replace_INITIAL_SLASH_RE r else s
  end.

(** [s.replace(/\/+$/, "")]: the longest run of slashes at the end of
    [s] is removed. *)
Fixpoint replace_FINAL_SLASH_RE (s : string) : string :=
  match s with
  | EmptyString => EmptyString
  | String c r =>
      match replace_FINAL_SLASH_RE r with
      | EmptyString => if is_slash c then EmptyString else String c EmptyString
      | r' => String c r'
      end
  end.

(** [s.split("/")]; the result is never the empty array. *)
Fixpoint split_slash (s : string) : list string :=
  match s with
  | EmptyString => [EmptyString]
  | String c r =>
      if is_slash c then EmptyString :: split_slash r
      else match split_slash r with
           | [] => [String c EmptyString]
           | seg :: segs => String c seg :: segs
           end
  end.

(** [parts.join("/")]. *)
Fixpoint join_slash (parts : list string) : string :=
  match parts with
  | [] => EmptyString
  | [p] => p
  | p :: ps => p ++ String slash (join_slash ps)
  end.

(** [parts.pop()], for its effect on the array. *)
Definition pop (parts : list string) : list string := removelast parts.

(** [s.startsWith(p)]. *)
Fixpoint startsWith (s p : string) {struct p} : bool :=
  match p with
  | EmptyString => true
  | String a p' =>
      match s with
      | EmptyString => false
      | String b s' => Ascii.eqb a b && startsWith s' p'
      end
  end.

(** The slash does not occur in [s]. *)
Fixpoint no_slash (s : string) : bool :=
  match s with
  | EmptyString => true
  | String c r => negb (is_slash c) && no_slash r
  end.

(** [s] begins with a slash; [s] ends with a slash. *)
Definition starts_slash (s : string) : bool :=
  match s with
  | EmptyString => false
  | String c _ => is_slash c
  end.

Fixpoint ends_slash (s : string) : bool :=
  match s with
  | EmptyString => false
  | String c EmptyString => is_slash c
  | String _ r => ends_slash r
  end.

End JsString.

Import JsString.

(** ** The platform's URL class

    [URL] objects of http and https pages, after the URL Standard
    (https://url.spec.whatwg.org): a URL record with the API's getters and
    the two setters the module assigns to.  A Streamlit page is served
    over http or https, so the scheme is one of the two; such a URL always
    has a host and a list of path segments. *)

Module Url.

Inductive Scheme : Type := Http | Https.

Definition scheme_name (s : Scheme) : string :=
  match s with Http => "http" | Https => "https" end.

(** The scheme's default port. *)
Definition default_port (s : Scheme) : N :=
  match s with Http => 80%N | Https => 443%N end.

Record URL : Type := mkURL {
  scheme : Scheme;
  username : string;
  password : string;
  host : string;
  port : option N;          (* null when absent or the scheme's default *)
  path : list string;       (* the path segments *)
  query : option string;
  fragment : option string
}.

Definition with_port (u : URL) (p : option N) : URL :=
  mkURL (scheme u) (username u) (password u) (host u) p (path u)
        (query u) (fragment u).

Definition with_path (u : URL) (segs : list string) : URL :=
  mkURL (scheme u) (username u) (password u) (host u) (port u) segs
        (query u) (fragment u).

(** *** Getters *)

Definition string_of_N (n : N) : string :=
  NilEmpty.string_of_uint (N.to_uint n).

Definition get_protocol (u : URL) : string := scheme_name (scheme u) ++ ":".

Definition get_hostname (u : URL) : string := host u.

(** [url.port]: the empty string when the port is null. *)
Definition get_port (u : URL) : string :=
  match port u with
  | None => ""
  | Some n => string_of_N n
  end.

(** The URL path serializer: every segment preceded by a slash. *)
Fixpoint serialize_path (segs : list string) : string :=
  match segs with
  | [] => ""
  | seg :: rest => String slash (seg ++ serialize_path rest)
  end.

Definition get_pathname (u : URL) : string := serialize_path (path u).

(** [url.href], the URL serializer. *)
Definition href (u : URL) : string :=
  scheme_name (scheme u) ++ "://"
  ++ (if String.eqb (username u) "" && String.eqb (password u) "" then ""
      else username u
           ++ (if String.eqb (password u) "" then "" else ":" ++ password u)
           ++ "@")
  ++ host u
  ++ (match port u with None => "" | Some n => ":" ++ string_of_N n end)
  ++ get_pathname u
  ++ (match query u with None => "" | Some q => "?" ++ q end)
  ++ (match fragment u with None => "" | Some f => "#" ++ f end).

(** *** The basic URL parser, as the setters run it *)

(** The parser first removes every ASCII tab or newline from its input. *)
Definition is_tab_or_newline (c : ascii) : bool :=
  let n := N_of_ascii c in
  N.eqb n 9 || N.eqb n 10 || N.eqb n 13.

Fixpoint remove_tab_newline (s : string) : string :=
  match s with
  | EmptyString => EmptyString
  | String c r =>
      if is_tab_or_newline c then remove_tab_newline r
      else String c (remove_tab_newline r)
  end.

Definition is_digit (c : ascii) : bool :=
  let n := N_of_ascii c in N.leb 48 n && N.leb n 57.

(** Port state: the ASCII digits at the start of the input. *)
Fixpoint digits_prefix (s : string) : string :=
  match s with
  | EmptyString => EmptyString
  | String c r => if is_digit c then String c (digits_prefix r) else EmptyString
  end.

Fixpoint N_of_digits (s : string) (acc : N) : N :=
  match s with
  | EmptyString => acc
  | String c r => N_of_digits r (10 * acc + (N_of_ascii c - 48))%N
  end.

(** The [port] setter.  The empty string resets the port.  Otherwise
    the value is parsed in port state with a state override: the digits
    at its start are read into the buffer; with an empty buffer, or with
    a number above 65535, the parser returns failure and the URL is left
    as it was; else, in the words of the standard, the parser sets the
    URL's port to null, if port is the URL's scheme's default port, and
    otherwise to port.  So [url.port] reads as the empty string after the
    default port was assigned. *)
Definition set_port (u : URL) (value : string) : URL :=
  if String.eqb value "" then with_port u None
  else
    let buffer := digits_prefix (remove_tab_newline value) in
    if String.eqb buffer "" then u
    else
      let p := N_of_digits buffer 0 in
      if N.ltb 65535 p then u
      else with_port u (if N.eqb p (default_port (scheme u)) then None
                        else Some p).

(** The path percent-encode set: C0 controls, everything above U+007E,
    and U+0020 (space), U+0022, U+0023 (number sign), U+003C, U+003E,
    U+003F (question mark), U+005E, U+0060, U+007B and U+007D. *)
Definition in_path_percent_encode_set (c : ascii) : bool :=
  let n := N_of_ascii c in
  N.ltb n 32 || N.ltb 126 n
  || existsb (N.eqb n) [32; 34; 35; 60; 62; 63; 94; 96; 123; 125]%N.

Definition hex_digit (n : N) : ascii :=
  if N.ltb n 10 then ascii_of_N (48 + n) else ascii_of_N (55 + n).

Definition percent_encode (c : ascii) : string :=
  if in_path_percent_encode_set c then
    let n := N_of_ascii c in
    String "%" (String (hex_digit (n / 16)) (String (hex_digit (n mod 16)) ""))
  else String c "".

(** In a URL with a special scheme the backslash separates segments
    like the slash. *)
Definition is_path_separator (c : ascii) : bool :=
  is_slash c || Ascii.eqb c "\"%char.

Definition is_single_dot (seg : string) : bool :=
  existsb (String.eqb seg) ["."; "%2e"; "%2E"].

Definition is_double_dot (seg : string) : bool :=
  existsb (String.eqb seg)
    [".."; ".%2e"; ".%2E"; "%2e."; "%2E."; "%2e%2e"; "%2e%2E"; "%2E%2e"; "%2E%2E"].

(** Shorten a path: drop its last segment, if any. *)
Definition shorten (segs : list string) : list string := removelast segs.

(** Path state, at the end of a segment: [at_eof] tells whether the
    segment was ended by the end of the input rather than a separator. *)
Definition end_segment (at_eof : bool) (buffer : string)
    (segs : list string) : list string :=
  if is_double_dot buffer then
    if at_eof then shorten segs ++ [""] else shorten segs
  else if is_single_dot buffer then
    if at_eof then segs ++ [""] else segs
  else segs ++ [buffer].

(** Path state, with a state override (so the question mark and
    the number sign are ordinary code points): [buffer] is the segment being read, [segs] the path
    built so far. *)
Fixpoint path_state (input buffer : string) (segs : list string)
    : list string :=
  match input with
  | EmptyString => end_segment true buffer segs
  | String c rest =>
      if is_path_separator c then
        path_state rest "" (end_segment false buffer segs)
      else path_state rest (buffer ++ percent_encode c) segs
  end.

(** Path start state: one leading separator is skipped. *)
Definition path_start_state (input : string) : list string :=
  match input with
  | String c rest =>
      if is_path_separator c then path_state rest "" []
      else path_state input "" []
  | EmptyString => path_state input "" []
  end.

(** The [pathname] setter: the path is emptied and the value parsed
    from path start state.  Whatever the value, the new path has at least
    one segment, so [url.pathname] begins with a slash afterwards. *)
Definition set_pathname (u : URL) (value : string) : URL :=
  with_path u (path_start_state (remove_tab_newline value)).

(** [new URL(u)] for a URL object [u]: [u] is serialized and parsed
    again, which gives a fresh object with the same record. *)
Definition new_URL_of (u : URL) : URL := u.

(** *** URLs as the parser leaves them *)

(** A code point that stands for itself in a path segment. *)
Definition plain_char (c : ascii) : bool :=
  negb (in_path_percent_encode_set c) && negb (is_path_separator c).

Fixpoint all_plain (s : string) : bool :=
  match s with
  | EmptyString => true
  | String c r => plain_char c && all_plain r
  end.

(** Slashes and plain code points only. *)
Fixpoint path_chars (s : string) : bool :=
  match s with
  | EmptyString => true
  | String c r => (is_slash c || plain_char c) && path_chars r
  end.

(** A segment of a parsed path: plain code points only, and not a dot
    segment (the parser resolves those). *)
Definition segment_ok (seg : string) : bool :=
  all_plain seg && negb (is_single_dot seg) && negb (is_double_dot seg).

(** The path of a URL that came out of the parser. *)
Definition path_ok (u : URL) : bool := forallb segment_ok (path u).

End Url.

Import Url.

(** ** makePath *)

Definition makePath (basePath subPath : string) : string :=
  let basePath := replace_INITIAL_SLASH_RE (replace_FINAL_SLASH_RE basePath) in
  let subPath := replace_INITIAL_SLASH_RE (replace_FINAL_SLASH_RE subPath) in
  if Nat.eqb (String.length basePath) 0 then subPath
  else basePath ++ "/" ++ subPath.

(** The normalisation [makePath] applies to each argument. *)
Definition normalize (s : string) : string :=
  replace_INITIAL_SLASH_RE (replace_FINAL_SLASH_RE s).

(** ** The ambient values the module reads

    [window.location] holds the URL of the page; [IS_DEV_ENV] and
    [WEBSOCKET_PORT_DEV] are imported from [~lib/baseconsts]. *)

Record Env : Type := mkEnv {
  window_location : URL;
  IS_DEV_ENV : bool;
  WEBSOCKET_PORT_DEV : string
}.

Definition window_location_href (env : Env) : string :=
  href (window_location env).

(** [new URL(window.location.href)]: [href] is the serialization of the
    page's URL, and parsing the serialization of a URL gives that URL
    back, in a fresh object. *)
Definition new_URL_of_location (env : Env) : URL := window_location env.

(** True if we're connected to the host via HTTPS. *)
Definition isHttps (env : Env) : bool :=
  startsWith (window_location_href env) "https://".

(** ** getWindowBaseUriParts *)

Definition getWindowBaseUriParts (env : Env) : URL :=
  let currentUrl := new_URL_of_location env in
  let currentUrl :=
    if IS_DEV_ENV env then set_port currentUrl (WEBSOCKET_PORT_DEV env)
    else if String.eqb (get_port currentUrl) "" then
      set_port currentUrl (if isHttps env then "443" else "80")
    else currentUrl in
  set_pathname currentUrl
    (replace_INITIAL_SLASH_RE (replace_FINAL_SLASH_RE (get_pathname currentUrl))).

(** ** getPossibleBaseUris *)

(** The loop [while (parts.length > 0) { ...; parts.pop() }]; the result
    is [possibleBaseUris] when the loop is left. *)
Equations? while_parts (baseUriParts : URL) (parts : list string)
    (possibleBaseUris : list URL) : list URL by wf (List.length parts) lt :=
  while_parts baseUriParts [] possibleBaseUris := possibleBaseUris;
  while_parts baseUriParts (p :: ps) possibleBaseUris :=
    let newURL := new_URL_of baseUriParts in
    let newURL := set_pathname newURL (join_slash (p :: ps)) in
    while_parts baseUriParts (pop (p :: ps)) (possibleBaseUris ++ [newURL]).
Proof.
  enough (H : forall (l : list string) a,
             List.length (removelast (a :: l)) < List.length (a :: l))
    by apply H.
  induction l as [|q qs IH]; intros a; [simpl; lia|].
  specialize (IH q). simpl in *. lia.
Qed.

(** lodash's [take]. *)
Definition take {A : Type} (l : list A) (n : nat) : list A := firstn n l.

Definition getPossibleBaseUris (env : Env) : list URL :=
  let baseUriParts := getWindowBaseUriParts env in
  let pathname := get_pathname baseUriParts in
  if String.eqb pathname "/" then [baseUriParts]
  else
    let parts := split_slash pathname in
    let possibleBaseUris := while_parts baseUriParts parts [] in
    take possibleBaseUris 2.

(** ** buildWsUri, buildHttpUri *)

Definition buildWsUri (env : Env) (base : URL) (path : string) : string :=
  let hostname := get_hostname base in
  let port := get_port base in
  let pathname := get_pathname base in
  let protocol := if isHttps env then "wss" else "ws" in
  let fullPath := makePath pathname path in
  protocol ++ "://" ++ hostname ++ ":" ++ port ++ "/" ++ fullPath.

Definition buildHttpUri (env : Env) (base : URL) (path : string) : string :=
  let hostname := get_hostname base in
  let port := get_port base in
  let pathname := get_pathname base in
  let protocol := if isHttps env then "https" else "http" in
  let fullPath := makePath pathname path in
  protocol ++ "://" ++ hostname ++ ":" ++ port ++ "/" ++ fullPath.

(** ** Exceptions

    A call either completes normally with a value or throws. *)

Inductive Completion (A : Type) : Type :=
| Normal (a : A)
| Throw (message : string).

Arguments Normal {A} a.
Arguments Throw {A} message.

Definition bind {A B : Type} (c : Completion A) (k : A -> Completion B)
    : Completion B :=
  match c with
  | Normal a => k a
  | Throw m => Throw m
  end.

Notation "x <- c ;; k" := (bind c (fun x => k))
  (at level 61, c at next level, right associativity).

(** ** The platform's URLPattern class, and URL parsing

    What [isValidOrigin] asks of the platform.  Both constructors of
    [URLPattern] and [new URL(string)] throw a [TypeError] on input they
    cannot parse; [test] and the getters do not throw. *)

Record URLPatternInit : Type := mkInit {
  init_protocol : string;
  init_hostname : string
}.

Class UrlPlatform : Type := {
  TestURL : Type;
  new_URL : string -> Completion TestURL;
  url_hostname : TestURL -> string;
  URLPattern : Type;
  new_URLPattern : string -> Completion URLPattern;
  new_URLPattern_init : URLPatternInit -> Completion URLPattern;
  pattern_protocol : URLPattern -> string;
  pattern_hostname : URLPattern -> string;
  pattern_test : URLPattern -> TestURL -> bool
}.

(** ** isValidOrigin *)

Section Validator.

Context {platform : UrlPlatform}.

(** The body of the [try] block: the three values it assigns. *)
Definition isValidOrigin_try (allowedOriginPattern testOrigin : string)
    : Completion (URLPattern * URLPattern * TestURL) :=
  allowedUrlPattern <- new_URLPattern allowedOriginPattern ;;
  allowedPortLessPattern <-
    new_URLPattern_init
      (mkInit (pattern_protocol allowedUrlPattern)
              (pattern_hostname allowedUrlPattern)) ;;
  testUrl <- new_URL testOrigin ;;
  Normal (allowedUrlPattern, allowedPortLessPattern, testUrl).

Definition isValidOrigin (allowedOriginPattern testOrigin : string)
    : Completion bool :=
  match isValidOrigin_try allowedOriginPattern testOrigin with
  | Throw _ => Normal false
  | Normal (allowedUrlPattern, allowedPortLessPattern, testUrl) =>
      if String.eqb (url_hostname testUrl) "localhost"
         && pattern_test allowedPortLessPattern testUrl
      then Normal true
      else Normal (pattern_test allowedUrlPattern testUrl)
  end.

End Validator.

(** ** A reference platform

    A small instance of [UrlPlatform], enough to run the validator on
    origins: patterns of the form [protocol://hostname] with an optional
    [:port], where an asterisk stands for any run of characters, and http
    and https URLs. *)

Module RefPlatform.

(** [p] matches [s], an asterisk in [p] standing for any string. *)
Fixpoint glob (p : string) : string -> bool :=
  match p with
  | EmptyString => fun s => String.eqb s ""
  | String c p' =>
      if Ascii.eqb c "*" then
        fix star (s : string) : bool :=
          glob p' s
          || match s with
             | EmptyString => false
             | String _ s' => star s'
             end
      else
        fun s =>
          match s with
          | EmptyString => false
          | String d s' => Ascii.eqb c d && glob p' s'
          end
  end.

(** The part of [s] before the first character satisfying [stop], and
    the rest from that character on. *)
Fixpoint break (stop : ascii -> bool) (s : string) : string * string :=
  match s with
  | EmptyString => (EmptyString, EmptyString)
  | String c r =>
      if stop c then (EmptyString, s)
      else let (a, b) := break stop r in (String c a, b)
  end.

Definition drop (n : nat) (s : string) : string :=
  String.substring n (String.length s - n) s.

Definition is_colon (c : ascii) : bool := Ascii.eqb c ":".
Definition ends_host (c : ascii) : bool := is_colon c || is_slash c.

Fixpoint no_space (s : string) : bool :=
  match s with
  | EmptyString => true
  | String c r => negb (Ascii.eqb c " ") && no_space r
  end.

Record Pattern : Type := mkPattern {
  pat_protocol : string;
  pat_hostname : string;
  pat_port : string
}.

Definition parse_pattern (s : string) : Completion Pattern :=
  let (proto, rest) := break is_colon s in
  if negb (startsWith rest "://") || String.eqb proto "" || negb (no_space proto)
  then Throw "TypeError: invalid pattern"
  else
    let (hostp, rest) := break ends_host (drop 3 rest) in
    if String.eqb hostp "" || negb (no_space hostp)
    then Throw "TypeError: invalid pattern"
    else
      let portp := if startsWith rest ":"
                   then fst (break is_slash (drop 1 rest)) else "" in
      Normal (mkPattern proto hostp portp).

(** A pattern built from an init with a protocol and a hostname leaves
    the port unconstrained. *)
Definition pattern_of_init (i : URLPatternInit) : Completion Pattern :=
  Normal (mkPattern (init_protocol i) (init_hostname i) "*").

Definition test (p : Pattern) (u : URL) : bool :=
  glob (pat_protocol p) (scheme_name (scheme u))
  && glob (pat_hostname p) (get_hostname u)
  && glob (pat_port p) (get_port u).

Definition parse_scheme (s : string) : option (Scheme * string) :=
  if startsWith s "https://" then Some (Https, drop 8 s)
  else if startsWith s "http://" then Some (Http, drop 7 s)
  else None.

Definition parse_url (s : string) : Completion URL :=
  match parse_scheme s with
  | None => Throw "TypeError: Invalid URL"
  | Some (sch, rest) =>
      let (h, rest) := break ends_host rest in
      if String.eqb h "" || negb (no_space h) then Throw "TypeError: Invalid URL"
      else
        let u := mkURL sch "" "" h None [] None None in
        let (p, rest) :=
          if startsWith rest ":" then break is_slash (drop 1 rest)
          else (EmptyString, rest) in
        if negb (String.eqb (digits_prefix p) p) then Throw "TypeError: Invalid URL"
        else Normal (set_pathname (set_port u p) rest)
  end.

#[export] Instance platform : UrlPlatform := {|
  TestURL := URL;
  new_URL := parse_url;
  url_hostname := get_hostname;
  URLPattern := Pattern;
  new_URLPattern := parse_pattern;
  new_URLPattern_init := pattern_of_init;
  pattern_protocol := pat_protocol;
  pattern_hostname := pat_hostname;
  pattern_test := test
|}.

End RefPlatform.

(** ** Pages used in the examples *)

Definition page (sch : Scheme) (h : string) (p : option N) (segs : list string)
    : URL :=
  mkURL sch "" "" h p segs None None.

Definition production (loc : URL) : Env := mkEnv loc false "8501".

Definition development (loc : URL) : Env := mkEnv loc true "8501".

(** A page served at the root of [the_host], at [/foo] and at [/foo/bar]. *)
Definition page_root : Env := production (page Http "the_host" (Some 9988%N) [""]).
Definition page_foo : Env := production (page Https "the_host" None ["foo"]).
Definition page_foo_bar : Env := production (page Http "the_host" None ["foo"; "bar"]).

(** ** Predicates the statements use *)

(** The call throws. *)
Definition throws {A : Type} (c : Completion A) : Prop :=
  exists message, c = Throw message.

(** A path string that names its segments: slashes and plain code points,
    no dot segment. *)
Definition clean_path (s : string) : Prop :=
  path_chars s = true /\ forallb segment_ok (split_slash s) = true.

(** Two URLs agree on everything but the path. *)
Definition same_but_path (u v : URL) : Prop :=
  scheme u = scheme v /\ username u = username v /\ password u = password v
  /\ host u = host v /\ port u = port v
  /\ query u = query v /\ fragment u = fragment v.

(** The scheme of the addresses [buildWsUri] and [buildHttpUri] build for
    a page of scheme [s]. *)
Definition ws_scheme (s : Scheme) : string :=
  match s with Https => "wss" | Http => "ws" end.

Definition http_scheme (s : Scheme) : string :=
  match s with Https => "https" | Http => "http" end.

(** * Properties *)

Local Open Scope string_scope.

(** ** Slash stripping *)

Section SlashStripping.

Lemma is_slash_true (c : ascii) : is_slash c = true -> c = slash.
Proof. unfold is_slash. apply Ascii.eqb_eq. Qed.

Lemma starts_slash_replace_INITIAL (s : string) :
  starts_slash (replace_INITIAL_SLASH_RE s) = false.
Proof.
  induction s as [|c r IH]; simpl; [reflexivity|].
  destruct (is_slash c) eqn:E; [exact IH|]. simpl. exact E.
Qed.

Lemma ends_slash_replace_FINAL (s : string) :
  ends_slash (replace_FINAL_SLASH_RE s) = false.
Proof.
  induction s as [|c r IH]; simpl; [reflexivity|].
  destruct (replace_FINAL_SLASH_RE r) as [|d r'] eqn:E.
  - destruct (is_slash c) eqn:Ec; simpl; [reflexivity | exact Ec].
  - exact IH.
Qed.

Lemma replace_INITIAL_fixed (s : string) :
  starts_slash s = false -> replace_INITIAL_SLASH_RE s = s.
Proof. destruct s as [|c r]; simpl; [reflexivity|]. now intros ->. Qed.

Lemma replace_FINAL_fixed (s : string) :
  ends_slash s = false -> replace_FINAL_SLASH_RE s = s.
Proof.
  induction s as [|c r IH]; [reflexivity|].
  intros H. cbn [replace_FINAL_SLASH_RE].
  destruct r as [|d r'].
  - simpl in *. now rewrite H.
  - rewrite IH by exact H. reflexivity.
Qed.

Lemma ends_slash_replace_INITIAL (s : string) :
  ends_slash s = false -> ends_slash (replace_INITIAL_SLASH_RE s) = false.
Proof.
  induction s as [|c r IH]; [reflexivity|].
  intros H. cbn [replace_INITIAL_SLASH_RE].
  destruct (is_slash c) eqn:Ec; [|exact H].
  apply IH. destruct r as [|d r']; [|exact H].
  simpl in H. congruence.
Qed.

Lemma starts_slash_normalize (s : string) : starts_slash (normalize s) = false.
Proof. apply starts_slash_replace_INITIAL. Qed.

Lemma ends_slash_normalize (s : string) : ends_slash (normalize s) = false.
Proof. apply ends_slash_replace_INITIAL, ends_slash_replace_FINAL. Qed.

Lemma normalize_fixed (s : string) :
  starts_slash s = false -> ends_slash s = false -> normalize s = s.
Proof.
  intros Hs He. unfold normalize.
  rewrite (replace_FINAL_fixed _ He). now apply replace_INITIAL_fixed.
Qed.

Lemma normalize_idem (s : string) : normalize (normalize s) = normalize s.
Proof.
  apply normalize_fixed;
    [apply starts_slash_normalize | apply ends_slash_normalize].
Qed.

Lemma ends_slash_app (x y : string) :
  y <> "" -> ends_slash (x ++ y) = ends_slash y.
Proof.
  intros Hy. induction x as [|c r IH]; [reflexivity|].
  cbn [append ends_slash]. rewrite <- IH.
  destruct (r ++ y) eqn:E; [|reflexivity].
  destruct r; simpl in E; [congruence | discriminate].
Qed.

Lemma starts_slash_app (x y : string) :
  x <> "" -> starts_slash (x ++ y) = starts_slash x.
Proof. destruct x; [congruence | reflexivity]. Qed.

Lemma replace_FINAL_app_slash (x : string) :
  replace_FINAL_SLASH_RE (x ++ "/") = replace_FINAL_SLASH_RE x.
Proof.
  induction x as [|c r IH]; [reflexivity|].
  cbn [append replace_FINAL_SLASH_RE]. now rewrite IH.
Qed.

Lemma no_slash_starts (s : string) : no_slash s = true -> starts_slash s = false.
Proof.
  destruct s as [|c r]; simpl; [reflexivity|].
  intros H. apply andb_prop in H as [H _]. now apply negb_true_iff.
Qed.

Lemma no_slash_ends (s : string) : no_slash s = true -> ends_slash s = false.
Proof.
  induction s as [|c r IH]; [reflexivity|].
  cbn [no_slash ends_slash]. intros H. apply andb_prop in H as [Hc Hr].
  destruct r; [now apply negb_true_iff | now apply IH].
Qed.

Lemma length_zero (s : string) : Nat.eqb (String.length s) 0 = true <-> s = "".
Proof. destruct s; simpl; split; congruence. Qed.

Lemma length_nonzero (s : string) : s <> "" -> Nat.eqb (String.length s) 0 = false.
Proof. destruct s; simpl; congruence. Qed.

End SlashStripping.

(** ** makePath *)

Lemma makePath_unfold (a b : string) :
  makePath a b =
    if String.eqb (normalize a) "" then normalize b
    else normalize a ++ "/" ++ normalize b.
Proof.
  unfold makePath. fold (normalize a) (normalize b).
  destruct (normalize a); reflexivity.
Qed.

(** The result of [makePath] neither begins nor ends with a slash when the
    normalised sub-path is not empty. *)
Lemma makePath_fixed (a b : string) :
  normalize b <> "" -> normalize (makePath a b) = makePath a b.
Proof.
  intros Hb. rewrite makePath_unfold.
  destruct (String.eqb_spec (normalize a) "") as [Ea|Ea].
  - apply normalize_idem.
  - apply normalize_fixed.
    + rewrite starts_slash_app by exact Ea. apply starts_slash_normalize.
    + rewrite ends_slash_app by (now destruct (normalize b)).
      change ("/" ++ normalize b) with (String slash (normalize b)).
      pose proof (ends_slash_normalize b) as H.
      destruct (normalize b); [congruence | exact H].
Qed.

Lemma makePath_nonempty (a b : string) :
  normalize b <> "" -> makePath a b <> "".
Proof.
  intros Hb. rewrite makePath_unfold.
  destruct (String.eqb_spec (normalize a) "") as [Ea|Ea]; [exact Hb|].
  destruct (normalize a); [congruence | discriminate].
Qed.

Lemma normalize_no_slash (s : string) : no_slash s = true -> normalize s = s.
Proof.
  intros H. apply normalize_fixed; [now apply no_slash_starts | now apply no_slash_ends].
Qed.

Lemma normalize_app_slash (x : string) : normalize (x ++ "/") = normalize x.
Proof. unfold normalize. now rewrite replace_FINAL_app_slash. Qed.

(** With an empty base path the result is the normalised sub-path. *)
Lemma makePath_empty_base (p : string) : makePath "" p = normalize p.
Proof. reflexivity. Qed.

(** C5, as stated, fails: joining ["a"] and ["b"] gives ["a/b"], and
    joining that with the empty sub-path gives ["a/b/"]. *)
Lemma makePath_not_idempotent :
  makePath (makePath "a" "b") "" = "a/b/" /\ makePath "a" "b" = "a/b"
  /\ makePath (makePath "a" "b") "" <> makePath "a" "b".
Proof. repeat split. discriminate. Qed.

(** C5, amended: joining the result of [makePath a b] with the empty
    sub-path gives that result again when [b] is empty once its slashes
    are stripped, and that result followed by one slash otherwise; either
    way the two are equal after normalisation. *)
Theorem makePath_again (a b : string) :
  makePath (makePath a b) "" =
    (if String.eqb (normalize b) "" then makePath a b else makePath a b ++ "/")
  /\ normalize (makePath (makePath a b) "") = normalize (makePath a b).
Proof.
  assert (Hstep : makePath (makePath a b) "" =
                  if String.eqb (normalize b) "" then makePath a b
                  else makePath a b ++ "/").
  { rewrite (makePath_unfold (makePath a b) "").
    change (normalize "") with "".
    destruct (String.eqb_spec (normalize b) "") as [Eb|Eb].
    - rewrite (makePath_unfold a b), Eb.
      destruct (String.eqb_spec (normalize a) "") as [Ea|Ea]; [reflexivity|].
      change ("/" ++ "") with "/".
      rewrite normalize_app_slash, normalize_idem.
      destruct (String.eqb_spec (normalize a) ""); [contradiction | reflexivity].
    - rewrite (makePath_fixed a b Eb).
      pose proof (makePath_nonempty a b Eb) as Hne.
      destruct (String.eqb_spec (makePath a b) ""); [contradiction | reflexivity]. }
  split; [exact Hstep|].
  rewrite Hstep.
  destruct (String.eqb (normalize b) ""); [reflexivity|].
  apply normalize_app_slash.
Qed.

(** C8, as stated, fails at the empty base path: the result is the
    sub-path alone, with no slash before it. *)
Lemma makePath_empty_base_no_separator :
  no_slash "" = true /\ no_slash "b" = true
  /\ makePath "" "b" = "b" /\ makePath "" "b" <> "" ++ "/" ++ "b".
Proof. repeat split. discriminate. Qed.

(** C8, amended: for [a] and [b] without slashes, [makePath a b] is [a],
    a slash, then [b] when [a] is not empty, and [b] alone when [a] is
    empty. *)
Theorem makePath_no_slash (a b : string) :
  no_slash a = true -> no_slash b = true ->
  makePath a b = if String.eqb a "" then b else a ++ "/" ++ b.
Proof.
  intros Ha Hb. rewrite makePath_unfold.
  now rewrite (normalize_no_slash a Ha), (normalize_no_slash b Hb).
Qed.

Lemma makePath_no_slash_witness :
  no_slash "foo" = true /\ no_slash "bar" = true
  /\ makePath "foo" "bar" = "foo/bar".
Proof.
  split; [reflexivity|]. split; [reflexivity|].
  exact (makePath_no_slash "foo" "bar" eq_refl eq_refl).
Defined.

(** ** The page's scheme *)

Lemma isHttps_scheme (env : Env) :
  isHttps env = match scheme (window_location env) with
                | Https => true
                | Http => false
                end.
Proof.
  unfold isHttps, window_location_href, href.
  destruct (scheme (window_location env)); reflexivity.
Qed.

(** ** The URL setters *)

Lemma set_port_same_but_port (u : URL) (value : string) :
  exists p, set_port u value = with_port u p.
Proof.
  unfold set_port.
  destruct (String.eqb value ""); [now exists None|].
  destruct (String.eqb _ ""); [exists (port u); now destruct u|].
  destruct (N.ltb _ _); [exists (port u); now destruct u|].
  eexists; reflexivity.
Qed.

Lemma get_pathname_set_port (u : URL) (value : string) :
  get_pathname (set_port u value) = get_pathname u.
Proof. destruct (set_port_same_but_port u value) as [p ->]. reflexivity. Qed.

Lemma scheme_set_port (u : URL) (value : string) :
  scheme (set_port u value) = scheme u.
Proof. destruct (set_port_same_but_port u value) as [p ->]. reflexivity. Qed.

Lemma get_port_set_pathname (u : URL) (value : string) :
  get_port (set_pathname u value) = get_port u.
Proof. reflexivity. Qed.

(** Assigning the scheme's default port leaves the port null. *)
Lemma set_port_default (u : URL) :
  port (set_port u (match scheme u with Https => "443" | Http => "80" end)) = None.
Proof. destruct u as [[] ? ? ? ? ? ? ?]; reflexivity. Qed.

Example set_port_default_https :
  get_port (set_port (page Https "the_host" None [""]) "443") = "".
Proof. reflexivity. Qed.

Example set_port_other :
  get_port (set_port (page Https "the_host" None [""]) "8501") = "8501".
Proof. reflexivity. Qed.

Example set_pathname_adds_slash :
  get_pathname (set_pathname (page Http "the_host" None [""]) "foo/bar")
  = "/foo/bar".
Proof. reflexivity. Qed.

Example set_pathname_empty :
  get_pathname (set_pathname (page Http "the_host" None ["foo"]) "") = "/".
Proof. reflexivity. Qed.

Example set_pathname_dot_segments :
  path (set_pathname (page Http "the_host" None [""]) "a/./b/../c") = ["a"; "c"]%list.
Proof. reflexivity. Qed.

Example set_pathname_encodes :
  get_pathname (set_pathname (page Http "the_host" None [""]) "a b?c")
  = "/a%20b%3Fc".
Proof. reflexivity. Qed.

Example development_port :
  get_port (getWindowBaseUriParts
              (development (page Http "localhost" (Some 3000%N) [""])))
  = "8501".
Proof. reflexivity. Qed.

(** ** buildWsUri, buildHttpUri *)

(** C9: both builders return scheme, [://], hostname, a colon, port, a
    slash and [makePath] of the base's pathname and the path; the scheme
    is [wss] (resp. [https]) on a page loaded over HTTPS and [ws] (resp.
    [http]) otherwise. *)
Theorem build_uri_shape (env : Env) (b : URL) (p : string) :
  buildWsUri env b p =
    ws_scheme (scheme (window_location env)) ++ "://" ++ get_hostname b ++ ":"
    ++ get_port b ++ "/" ++ makePath (get_pathname b) p
  /\ buildHttpUri env b p =
    http_scheme (scheme (window_location env)) ++ "://" ++ get_hostname b ++ ":"
    ++ get_port b ++ "/" ++ makePath (get_pathname b) p.
Proof.
  unfold buildWsUri, buildHttpUri. rewrite isHttps_scheme.
  destruct (scheme (window_location env)); split; reflexivity.
Qed.

(** ** getWindowBaseUriParts: the port *)

(** C6: in production, on a page whose URL has no explicit port, the
    port of the returned URL is still the empty string: the value the
    module assigns is the scheme's default port, which a URL object does
    not keep. *)
Theorem production_port_stays_empty (env : Env) :
  IS_DEV_ENV env = false ->
  port (window_location env) = None ->
  get_port (getWindowBaseUriParts env) = "".
Proof.
  intros Hdev Hport. unfold getWindowBaseUriParts, new_URL_of_location.
  rewrite Hdev, get_port_set_pathname.
  unfold get_port at 2. rewrite Hport. cbn [String.eqb].
  rewrite isHttps_scheme. unfold get_port.
  pose proof (set_port_default (window_location env)) as H.
  destruct (scheme (window_location env)); now rewrite H.
Qed.

Example production_port_not_explicit :
  get_port (getWindowBaseUriParts page_foo) <> "443"
  /\ buildWsUri page_foo (getWindowBaseUriParts page_foo) "_stcore/stream"
     = "wss://the_host:/foo/_stcore/stream".
Proof. split; [discriminate | reflexivity]. Qed.

Lemma production_port_stays_empty_witness :
  get_port (getWindowBaseUriParts page_foo) = ""
  /\ get_port (getWindowBaseUriParts page_foo_bar) = "".
Proof.
  split.
  - exact (production_port_stays_empty page_foo eq_refl eq_refl).
  - exact (production_port_stays_empty page_foo_bar eq_refl eq_refl).
Defined.

(** ** Splitting and joining at slashes *)

Section SplitJoin.

Lemma append_empty_r (s : string) : s ++ "" = s.
Proof. induction s as [|c r IH]; simpl; [reflexivity | now rewrite IH]. Qed.

Lemma append_assoc (x y z : string) : (x ++ y) ++ z = x ++ y ++ z.
Proof. induction x as [|c r IH]; simpl; [reflexivity | now rewrite IH]. Qed.

Lemma split_slash_nonnil (s : string) : split_slash s <> [].
Proof.
  destruct s as [|c r]; simpl; [discriminate|].
  destruct (is_slash c); [discriminate|].
  destruct (split_slash r); discriminate.
Qed.

Lemma split_slash_no_slash (s : string) :
  no_slash s = true -> split_slash s = [s].
Proof.
  induction s as [|c r IH]; [reflexivity|].
  cbn [no_slash split_slash]. intros H. apply andb_prop in H as [Hc Hr].
  apply negb_true_iff in Hc. rewrite Hc, (IH Hr). reflexivity.
Qed.

Lemma split_slash_app_slash (x y : string) :
  no_slash x = true ->
  split_slash (x ++ String slash y) = x :: split_slash y.
Proof.
  induction x as [|c r IH]; [reflexivity|].
  cbn [no_slash append split_slash]. intros H.
  apply andb_prop in H as [Hc Hr].
  apply negb_true_iff in Hc. rewrite Hc, (IH Hr). reflexivity.
Qed.

Lemma join_split (s : string) : join_slash (split_slash s) = s.
Proof.
  induction s as [|c r IH]; [reflexivity|].
  cbn [split_slash]. destruct (is_slash c) eqn:Ec.
  - apply is_slash_true in Ec. subst c.
    pose proof (split_slash_nonnil r) as Hne.
    cbn [join_slash]. destruct (split_slash r) as [|h t]; [contradiction|].
    now rewrite IH.
  - pose proof (split_slash_nonnil r) as Hne.
    destruct (split_slash r) as [|h t]; [contradiction|].
    destruct t as [|h' t']; simpl in *; now rewrite <- IH.
Qed.

Lemma serialize_path_join (segs : list string) :
  segs <> [] -> serialize_path segs = String slash (join_slash segs).
Proof.
  induction segs as [|seg rest IH]; [congruence|]. intros _.
  cbn [serialize_path join_slash]. destruct rest as [|seg' rest'].
  - simpl. now rewrite append_empty_r.
  - rewrite IH by discriminate. reflexivity.
Qed.

Lemma split_slash_cons_slash (c : ascii) (r : string) :
  is_slash c = true -> split_slash (String c r) = "" :: split_slash r.
Proof. intros H. cbn [split_slash]. now rewrite H. Qed.

Lemma split_slash_cons_other (c : ascii) (r : string) :
  is_slash c = false ->
  split_slash (String c r)
  = String c (hd "" (split_slash r)) :: tl (split_slash r).
Proof.
  intros H. cbn [split_slash]. rewrite H.
  pose proof (split_slash_nonnil r) as Hne.
  destruct (split_slash r); [contradiction | reflexivity].
Qed.

Lemma replace_FINAL_cons_other (c : ascii) (r : string) :
  is_slash c = false ->
  replace_FINAL_SLASH_RE (String c r) = String c (replace_FINAL_SLASH_RE r).
Proof.
  intros H. cbn [replace_FINAL_SLASH_RE]. rewrite H.
  destruct (replace_FINAL_SLASH_RE r); reflexivity.
Qed.

Lemma replace_FINAL_cons_slash (c : ascii) (r : string) :
  is_slash c = true ->
  replace_FINAL_SLASH_RE (String c r)
  = if String.eqb (replace_FINAL_SLASH_RE r) "" then ""
    else String c (replace_FINAL_SLASH_RE r).
Proof.
  intros H. cbn [replace_FINAL_SLASH_RE]. rewrite H.
  destruct (replace_FINAL_SLASH_RE r); reflexivity.
Qed.

(** Stripping the final slashes keeps the first segment and drops
    segments from the others. *)
Lemma split_replace_FINAL (s : string) :
  exists t', split_slash (replace_FINAL_SLASH_RE s)
             = hd "" (split_slash s) :: t'
             /\ incl t' (tl (split_slash s)).
Proof.
  induction s as [|c r IH].
  - exists []. split; [reflexivity | apply incl_nil_l].
  - destruct IH as [t0 [IH1 IH2]].
    destruct (is_slash c) eqn:Ec.
    + rewrite (replace_FINAL_cons_slash c r Ec), (split_slash_cons_slash c r Ec).
      cbn [hd tl].
      destruct (String.eqb (replace_FINAL_SLASH_RE r) "").
      * exists []. split; [reflexivity | apply incl_nil_l].
      * rewrite (split_slash_cons_slash c _ Ec), IH1.
        exists (hd "" (split_slash r) :: t0). split; [reflexivity|].
        pose proof (split_slash_nonnil r) as Hne.
        destruct (split_slash r) as [|h t]; [contradiction|].
        cbn [hd tl] in *. intros x [Hx|Hx]; [now left | right; now apply IH2].
    + rewrite (replace_FINAL_cons_other c r Ec).
      rewrite !(split_slash_cons_other c _ Ec), IH1. cbn [hd tl].
      exists t0. split; [reflexivity | exact IH2].
Qed.

Lemma split_replace_INITIAL (s : string) :
  incl (split_slash (replace_INITIAL_SLASH_RE s)) (split_slash s).
Proof.
  induction s as [|c r IH]; [apply incl_refl|].
  cbn [replace_INITIAL_SLASH_RE]. destruct (is_slash c) eqn:Ec; [|apply incl_refl].
  cbn [split_slash]. rewrite Ec. now apply incl_tl.
Qed.

Lemma split_normalize (s : string) :
  incl (split_slash (normalize s)) (split_slash s).
Proof.
  unfold normalize. eapply incl_tran; [apply split_replace_INITIAL|].
  destruct (split_replace_FINAL s) as [t' [-> Hincl]].
  pose proof (split_slash_nonnil s) as Hne.
  destruct (split_slash s) as [|h t]; [contradiction|]. cbn [hd tl] in *.
  intros x [Hx|Hx]; [now left | right; now apply Hincl].
Qed.

End SplitJoin.

(** ** The pathname setter on a path the parser has produced *)

Section PathnameSetter.

Lemma plain_not_separator (c : ascii) :
  plain_char c = true -> is_path_separator c = false.
Proof.
  unfold plain_char. intros H. apply andb_prop in H as [_ H].
  now apply negb_true_iff.
Qed.

Lemma plain_not_slash (c : ascii) : plain_char c = true -> is_slash c = false.
Proof.
  intros H. apply plain_not_separator in H. unfold is_path_separator in H.
  now apply orb_false_iff in H.
Qed.

Lemma plain_percent_encode (c : ascii) :
  plain_char c = true -> percent_encode c = String c "".
Proof.
  unfold plain_char, percent_encode. intros H. apply andb_prop in H as [H _].
  apply negb_true_iff in H. now rewrite H.
Qed.

Lemma plain_not_tab_or_newline (c : ascii) :
  plain_char c = true -> is_tab_or_newline c = false.
Proof.
  unfold plain_char, in_path_percent_encode_set, is_tab_or_newline.
  intros H. apply andb_prop in H as [H _]. apply negb_true_iff in H.
  apply orb_false_iff in H as [H _]. apply orb_false_iff in H as [H _].
  apply N.ltb_ge in H.
  repeat (apply orb_false_iff; split); apply N.eqb_neq; lia.
Qed.

Lemma slash_is_separator (c : ascii) :
  is_slash c = true -> is_path_separator c = true.
Proof. unfold is_path_separator. now intros ->. Qed.

Lemma remove_tab_newline_path_chars (s : string) :
  path_chars s = true -> remove_tab_newline s = s.
Proof.
  induction s as [|c r IH]; [reflexivity|].
  cbn [path_chars remove_tab_newline]. intros H.
  apply andb_prop in H as [Hc Hr]. rewrite (IH Hr).
  apply orb_prop in Hc as [Hc|Hc].
  - apply is_slash_true in Hc. subst c. reflexivity.
  - now rewrite (plain_not_tab_or_newline c Hc).
Qed.

Lemma all_plain_no_slash (s : string) : all_plain s = true -> no_slash s = true.
Proof.
  induction s as [|c r IH]; [reflexivity|].
  cbn [all_plain no_slash]. intros H. apply andb_prop in H as [Hc Hr].
  now rewrite (plain_not_slash c Hc), (IH Hr).
Qed.

Lemma all_plain_path_chars (s : string) : all_plain s = true -> path_chars s = true.
Proof.
  induction s as [|c r IH]; [reflexivity|].
  cbn [all_plain path_chars]. intros H. apply andb_prop in H as [Hc Hr].
  rewrite Hc, (IH Hr). now rewrite orb_true_r.
Qed.

Lemma all_plain_app (x y : string) :
  all_plain (x ++ y) = all_plain x && all_plain y.
Proof.
  induction x as [|c r IH]; [reflexivity|].
  cbn [append all_plain]. now rewrite IH, andb_assoc.
Qed.

Lemma path_chars_app (x y : string) :
  path_chars (x ++ y) = path_chars x && path_chars y.
Proof.
  induction x as [|c r IH]; [reflexivity|].
  cbn [append path_chars]. now rewrite IH, andb_assoc.
Qed.

Lemma segment_ok_plain (seg : string) : segment_ok seg = true -> all_plain seg = true.
Proof.
  unfold segment_ok. intros H. apply andb_prop in H as [H _].
  now apply andb_prop in H as [H _].
Qed.

Lemma end_segment_ok (at_eof : bool) (buffer : string) (segs : list string) :
  segment_ok buffer = true ->
  end_segment at_eof buffer segs = (segs ++ [buffer])%list.
Proof.
  unfold segment_ok, end_segment. intros H.
  apply andb_prop in H as [H Hdd]. apply andb_prop in H as [_ Hd].
  apply negb_true_iff in Hd, Hdd. now rewrite Hd, Hdd.
Qed.

(** On plain input without dot segments, path state appends the
    segments between the slashes. *)
Lemma path_state_ok (input : string) :
  forall (buffer : string) (segs : list string),
    all_plain buffer = true ->
    path_chars input = true ->
    forallb segment_ok (split_slash (buffer ++ input)) = true ->
    path_state input buffer segs
    = (segs ++ split_slash (buffer ++ input))%list.
Proof.
  induction input as [|c rest IH]; intros buffer segs Hb Hin Hok.
  - rewrite append_empty_r in *.
    rewrite (split_slash_no_slash buffer (all_plain_no_slash _ Hb)) in *.
    cbn [forallb] in Hok. apply andb_prop in Hok as [Hok _].
    cbn [path_state]. now apply end_segment_ok.
  - cbn [path_chars] in Hin. apply andb_prop in Hin as [Hc Hrest].
    cbn [path_state]. destruct (is_slash c) eqn:Ec.
    + rewrite (slash_is_separator c Ec).
      apply is_slash_true in Ec. subst c.
      rewrite (split_slash_app_slash buffer rest (all_plain_no_slash _ Hb)) in *.
      cbn [forallb] in Hok. apply andb_prop in Hok as [Hbuf Hok].
      rewrite (end_segment_ok false buffer segs Hbuf).
      rewrite (IH "" (segs ++ [buffer])%list eq_refl Hrest Hok).
      now rewrite <- app_assoc.
    + cbn [orb] in Hc.
      rewrite (plain_not_separator c Hc), (plain_percent_encode c Hc).
      assert (E : (buffer ++ String c "") ++ rest = buffer ++ String c rest)
        by now rewrite append_assoc.
      rewrite (IH (buffer ++ String c "") segs); rewrite ?E; auto.
      rewrite all_plain_app, Hb. cbn [all_plain]. now rewrite Hc.
Qed.

Lemma path_start_state_ok (s : string) :
  clean_path s -> starts_slash s = false ->
  path_start_state s = split_slash s.
Proof.
  intros [Hc Hok] Hs. unfold path_start_state.
  assert (E : path_state s "" [] = split_slash s)
    by now rewrite (path_state_ok s "" [] eq_refl Hc Hok).
  destruct s as [|c r]; [exact E|].
  cbn [starts_slash] in Hs. cbn [path_chars] in Hc.
  apply andb_prop in Hc as [Hc _]. rewrite Hs in Hc. cbn [orb] in Hc.
  now rewrite (plain_not_separator c Hc).
Qed.

Lemma path_start_state_slash_ok (s : string) :
  clean_path s -> path_start_state (String slash s) = split_slash s.
Proof.
  intros [Hc Hok]. cbn [path_start_state].
  change (is_path_separator slash) with true. cbv iota.
  now rewrite (path_state_ok s "" [] eq_refl Hc Hok).
Qed.

Lemma set_pathname_ok (u : URL) (s : string) :
  clean_path s -> starts_slash s = false ->
  set_pathname u s = with_path u (split_slash s).
Proof.
  intros Hc Hs. unfold set_pathname.
  rewrite (remove_tab_newline_path_chars s (proj1 Hc)).
  now rewrite path_start_state_ok.
Qed.

Lemma set_pathname_slash_ok (u : URL) (s : string) :
  clean_path s -> set_pathname u (String slash s) = with_path u (split_slash s).
Proof.
  intros Hc. unfold set_pathname.
  assert (Hp : path_chars (String slash s) = true) by (cbn; exact (proj1 Hc)).
  rewrite (remove_tab_newline_path_chars _ Hp).
  now rewrite path_start_state_slash_ok.
Qed.

Lemma get_pathname_with_path_split (u : URL) (s : string) :
  get_pathname (with_path u (split_slash s)) = String slash s.
Proof.
  unfold get_pathname. cbn [path with_path].
  rewrite serialize_path_join by apply split_slash_nonnil.
  now rewrite join_split.
Qed.

End PathnameSetter.

(** ** The pathname of a parsed URL *)

Section ParsedPath.

Lemma path_chars_serialize (segs : list string) :
  forallb segment_ok segs = true -> path_chars (serialize_path segs) = true.
Proof.
  induction segs as [|seg rest IH]; [reflexivity|].
  cbn [forallb serialize_path path_chars]. intros H.
  apply andb_prop in H as [Hseg Hrest].
  rewrite path_chars_app, (IH Hrest).
  now rewrite (all_plain_path_chars seg (segment_ok_plain seg Hseg)).
Qed.

Lemma path_chars_replace_INITIAL (s : string) :
  path_chars s = true -> path_chars (replace_INITIAL_SLASH_RE s) = true.
Proof.
  induction s as [|c r IH]; [reflexivity|].
  intros H. cbn [replace_INITIAL_SLASH_RE].
  destruct (is_slash c); [|exact H].
  cbn [path_chars] in H. apply andb_prop in H as [_ H]. now apply IH.
Qed.

Lemma path_chars_replace_FINAL (s : string) :
  path_chars s = true -> path_chars (replace_FINAL_SLASH_RE s) = true.
Proof.
  induction s as [|c r IH]; [reflexivity|].
  intros H. cbn [path_chars] in H. apply andb_prop in H as [Hc Hr].
  specialize (IH Hr). destruct (is_slash c) eqn:Ec.
  - rewrite (replace_FINAL_cons_slash c r Ec).
    destruct (String.eqb _ ""); [reflexivity|].
    cbn [path_chars]. now rewrite IH, Ec.
  - rewrite (replace_FINAL_cons_other c r Ec).
    cbn [path_chars]. now rewrite IH, Ec, Hc.
Qed.

Lemma split_app_serialize (rest : list string) :
  forall seg : string,
    forallb segment_ok (seg :: rest) = true ->
    split_slash (seg ++ serialize_path rest) = seg :: rest.
Proof.
  induction rest as [|seg' rest' IH]; intros seg H.
  - cbn [serialize_path]. rewrite append_empty_r.
    apply split_slash_no_slash, all_plain_no_slash, segment_ok_plain.
    cbn [forallb] in H. now apply andb_prop in H as [H _].
  - cbn [forallb] in H. apply andb_prop in H as [Hseg Hrest].
    cbn [serialize_path].
    rewrite split_slash_app_slash
      by now apply all_plain_no_slash, segment_ok_plain.
    now rewrite (IH seg' Hrest).
Qed.

Lemma split_serialize_ok (segs : list string) :
  forallb segment_ok segs = true ->
  forallb segment_ok (split_slash (serialize_path segs)) = true.
Proof.
  intros H. destruct segs as [|seg rest]; [reflexivity|].
  cbn [serialize_path].
  rewrite (split_slash_cons_slash slash _ eq_refl).
  rewrite (split_app_serialize rest seg H). exact H.
Qed.

Lemma clean_path_normalize (s : string) :
  clean_path s -> clean_path (normalize s).
Proof.
  intros [Hc Hok]. split.
  - now apply path_chars_replace_INITIAL, path_chars_replace_FINAL.
  - apply forallb_forall. intros x Hx.
    apply (proj1 (forallb_forall _ _) Hok). now apply split_normalize.
Qed.

Lemma clean_path_pathname (u : URL) :
  path_ok u = true -> clean_path (get_pathname u).
Proof.
  intros H. split; [now apply path_chars_serialize | now apply split_serialize_ok].
Qed.

End ParsedPath.

(** ** getWindowBaseUriParts: the pathname *)

Lemma path_getWindowBaseUriParts (env : Env) :
  path (getWindowBaseUriParts env)
  = path_start_state
      (remove_tab_newline (normalize (get_pathname (window_location env)))).
Proof.
  unfold getWindowBaseUriParts, new_URL_of_location, normalize.
  destruct (IS_DEV_ENV env); [|destruct (String.eqb _ "")];
    rewrite ?get_pathname_set_port; reflexivity.
Qed.

Lemma path_getWindowBaseUriParts_ok (env : Env) :
  path_ok (window_location env) = true ->
  path (getWindowBaseUriParts env)
  = split_slash (normalize (get_pathname (window_location env))).
Proof.
  intros Hok. rewrite path_getWindowBaseUriParts.
  pose proof (clean_path_normalize _ (clean_path_pathname _ Hok)) as Hc.
  rewrite (remove_tab_newline_path_chars _ (proj1 Hc)).
  apply path_start_state_ok; [exact Hc | apply starts_slash_normalize].
Qed.

(** C4, as stated, fails: the pathname of the returned URL begins with a
    slash, and at the root it is that slash alone. *)
Lemma base_pathname_has_leading_slash :
  path_ok (window_location page_foo) = true
  /\ get_pathname (getWindowBaseUriParts page_foo) = "/foo"
  /\ starts_slash (get_pathname (getWindowBaseUriParts page_foo)) = true
  /\ get_pathname (getWindowBaseUriParts page_root) = "/"
  /\ ~ (starts_slash (get_pathname (getWindowBaseUriParts page_foo)) = false
        /\ ends_slash (get_pathname (getWindowBaseUriParts page_foo)) = false).
Proof. repeat split. intros [H _]. discriminate H. Qed.

(** C4, amended: the pathname of the URL [getWindowBaseUriParts] returns
    is one slash followed by the page's pathname with its trailing and
    then its leading slashes stripped; what follows that first slash
    neither begins nor ends with a slash. *)
Theorem base_pathname_shape (env : Env) :
  path_ok (window_location env) = true ->
  get_pathname (getWindowBaseUriParts env)
  = String slash (normalize (get_pathname (window_location env)))
  /\ starts_slash (normalize (get_pathname (window_location env))) = false
  /\ ends_slash (normalize (get_pathname (window_location env))) = false.
Proof.
  intros Hok. split; [|split].
  - unfold get_pathname at 1. rewrite (path_getWindowBaseUriParts_ok env Hok).
    rewrite serialize_path_join by apply split_slash_nonnil.
    now rewrite join_split.
  - apply starts_slash_normalize.
  - apply ends_slash_normalize.
Qed.

Lemma base_pathname_shape_witness :
  path_ok (window_location page_foo_bar) = true
  /\ get_pathname (getWindowBaseUriParts page_foo_bar) = "/foo/bar".
Proof.
  split; [reflexivity|].
  exact (proj1 (base_pathname_shape page_foo_bar eq_refl)).
Defined.

(** ** getPossibleBaseUris *)

Lemma while_parts_nil (base : URL) (acc : list URL) :
  while_parts base [] acc = acc.
Proof. now simp while_parts. Qed.

Lemma while_parts_cons (base : URL) (p : string) (ps : list string)
    (acc : list URL) :
  while_parts base (p :: ps) acc
  = while_parts base (pop (p :: ps))
      (acc ++ [set_pathname (new_URL_of base) (join_slash (p :: ps))])%list.
Proof. now simp while_parts. Qed.

Lemma set_pathname_same_but_path (u : URL) (value : string) :
  same_but_path (set_pathname u value) u.
Proof. unfold same_but_path. cbn. tauto. Qed.

(** Every URL the loop pushes is the base URL with another path. *)
Lemma while_parts_frame (base : URL) (parts : list string) (acc : list URL) :
  Forall (fun c => same_but_path c base) acc ->
  Forall (fun c => same_but_path c base) (while_parts base parts acc).
Proof.
  funelim (while_parts base parts acc).
  - trivial.
  - intros Hacc. apply H.
    apply Forall_app. split; [exact Hacc|].
    constructor; [apply set_pathname_same_but_path | constructor].
Qed.

Lemma length_pop (p : string) (ps : list string) :
  List.length (pop (p :: ps)) = List.length ps.
Proof.
  unfold pop. revert p. induction ps as [|q qs IH]; intros p; [reflexivity|].
  specialize (IH q). cbn [removelast List.length] in *. now rewrite IH.
Qed.

(** The loop pushes one URL for each part. *)
Lemma while_parts_length (base : URL) (parts : list string) (acc : list URL) :
  List.length (while_parts base parts acc)
  = List.length acc + List.length parts.
Proof.
  funelim (while_parts base parts acc).
  - now rewrite Nat.add_0_r.
  - rewrite H, length_app, length_pop. cbn [List.length]. lia.
Qed.

Lemma path_state_nonnil (input : string) :
  forall (buffer : string) (segs : list string),
    path_state input buffer segs <> [].
Proof.
  induction input as [|c rest IH]; intros buffer segs.
  - cbn [path_state]. unfold end_segment.
    destruct (is_double_dot buffer); [|destruct (is_single_dot buffer)];
      intros H; apply app_eq_nil in H as [_ H]; discriminate.
  - cbn [path_state]. destruct (is_path_separator c); apply IH.
Qed.

(** The pathname of a URL whose pathname was assigned begins with a
    slash. *)
Lemma get_pathname_set_pathname (u : URL) (value : string) :
  exists rest : string, get_pathname (set_pathname u value) = String slash rest.
Proof.
  unfold get_pathname, set_pathname. cbn [path with_path].
  assert (H : path_start_state (remove_tab_newline value) <> []).
  { unfold path_start_state.
    destruct (remove_tab_newline value) as [|c r];
      [|destruct (is_path_separator c)]; apply path_state_nonnil. }
  destruct (path_start_state (remove_tab_newline value)) as [|seg segs];
    [contradiction|].
  cbn [serialize_path]. eexists; reflexivity.
Qed.

Lemma base_pathname_starts_slash (env : Env) :
  exists rest : string,
    get_pathname (getWindowBaseUriParts env) = String slash rest.
Proof. unfold getWindowBaseUriParts. apply get_pathname_set_pathname. Qed.

(** There is one candidate on a root page and there are two on every
    other page. *)
Lemma candidates_count (env : Env) :
  List.length (getPossibleBaseUris env)
  = if String.eqb (get_pathname (getWindowBaseUriParts env)) "/" then 1 else 2.
Proof.
  unfold getPossibleBaseUris.
  destruct (String.eqb _ "/"); [reflexivity|].
  destruct (base_pathname_starts_slash env) as [rest Hrest].
  rewrite Hrest, (split_slash_cons_slash slash rest eq_refl).
  unfold take. pose proof (split_slash_nonnil rest) as Hne.
  destruct (split_slash rest) as [|h t]; [contradiction|].
  pose proof (while_parts_length (getWindowBaseUriParts env) ("" :: h :: t) [])
    as Hlen.
  cbn [List.length Nat.add] in Hlen.
  destruct (while_parts _ _ _) as [|c1 [|c2 l]]; try discriminate Hlen.
  reflexivity.
Qed.

Lemma take_Forall {A : Type} (P : A -> Prop) (l : list A) (n : nat) :
  Forall P l -> Forall P (take l n).
Proof.
  unfold take. revert l. induction n as [|n IH]; intros l H; [constructor|].
  destruct H; [constructor|]. cbn [firstn]. constructor; auto.
Qed.

(** C10: every candidate has the scheme, the hostname and the port of
    the URL [getWindowBaseUriParts] returns, and differs from it in its
    path only. *)
Theorem candidates_differ_in_path_only (env : Env) :
  Forall (fun c : URL =>
            scheme c = scheme (getWindowBaseUriParts env)
            /\ get_hostname c = get_hostname (getWindowBaseUriParts env)
            /\ get_port c = get_port (getWindowBaseUriParts env)
            /\ same_but_path c (getWindowBaseUriParts env))
         (getPossibleBaseUris env).
Proof.
  set (base := getWindowBaseUriParts env).
  assert (H : Forall (fun c => same_but_path c base) (getPossibleBaseUris env)).
  { unfold getPossibleBaseUris. fold base.
    destruct (String.eqb (get_pathname base) "/").
    - constructor; [unfold same_but_path; tauto | constructor].
    - apply take_Forall, while_parts_frame. constructor. }
  eapply Forall_impl; [|exact H].
  intros c Hc. pose proof Hc as (Hs & _ & _ & Hh & Hp & _).
  unfold get_hostname, get_port. rewrite Hs, Hh, Hp. tauto.
Qed.

(** The candidates when the normalised path of the page is one segment. *)
Lemma one_segment_candidates (env : Env) (seg : string) :
  normalize (get_pathname (window_location env)) = seg ->
  seg <> "" -> segment_ok seg = true ->
  getPossibleBaseUris env
  = [with_path (getWindowBaseUriParts env) [seg];
     with_path (getWindowBaseUriParts env) [""]].
Proof.
  intros Hn Hne Hok.
  assert (Hplain : all_plain seg = true) by now apply segment_ok_plain.
  assert (Hsplit : split_slash seg = [seg])
    by now apply split_slash_no_slash, all_plain_no_slash.
  assert (Hclean : clean_path seg).
  { split; [now apply all_plain_path_chars|].
    rewrite Hsplit. cbn [forallb]. now rewrite Hok. }
  assert (Hstart : starts_slash seg = false)
    by now apply no_slash_starts, all_plain_no_slash.
  unfold getPossibleBaseUris.
  set (base := getWindowBaseUriParts env).
  assert (Hpath : get_pathname base = String slash seg).
  { unfold get_pathname, base. rewrite path_getWindowBaseUriParts, Hn.
    rewrite (remove_tab_newline_path_chars seg (proj1 Hclean)).
    rewrite (path_start_state_ok seg Hclean Hstart), Hsplit.
    cbn [serialize_path]. now rewrite append_empty_r. }
  rewrite Hpath.
  assert (Hroot : String.eqb (String slash seg) "/" = false)
    by (destruct seg; [congruence | reflexivity]).
  rewrite Hroot, (split_slash_cons_slash slash seg eq_refl), Hsplit.
  rewrite while_parts_cons. cbn [pop removelast join_slash app].
  rewrite while_parts_cons. cbn [pop removelast join_slash app].
  rewrite while_parts_nil. unfold new_URL_of.
  change ("" ++ String slash seg) with (String slash seg).
  rewrite (set_pathname_slash_ok base seg Hclean), Hsplit.
  reflexivity.
Qed.

(** C3, as stated, fails: on the page [/foo] there are two candidates,
    [/foo] and the root. *)
Lemma one_segment_not_one_candidate :
  normalize (get_pathname (window_location page_foo)) = "foo"
  /\ map get_pathname (getPossibleBaseUris page_foo) = ["/foo"; "/"]
  /\ List.length (getPossibleBaseUris page_foo) <> 1.
Proof. repeat split. discriminate. Qed.

(** C3, amended: when the normalised path of the page is one segment,
    [getPossibleBaseUris] returns two candidates, the first with that
    segment as its path and the second with the root path. *)
Theorem one_segment_two_candidates (env : Env) (seg : string) :
  normalize (get_pathname (window_location env)) = seg ->
  seg <> "" -> segment_ok seg = true ->
  List.length (getPossibleBaseUris env) = 2
  /\ map get_pathname (getPossibleBaseUris env) = [String slash seg; "/"].
Proof.
  intros Hn Hne Hok. rewrite (one_segment_candidates env seg Hn Hne Hok).
  split; [reflexivity|]. cbn. now rewrite append_empty_r.
Qed.

Lemma one_segment_two_candidates_witness :
  List.length (getPossibleBaseUris page_foo) = 2
  /\ map get_pathname (getPossibleBaseUris page_foo) = ["/foo"; "/"].
Proof.
  refine (one_segment_two_candidates page_foo "foo" eq_refl _ eq_refl).
  discriminate.
Defined.

(** C7, as stated, fails in the paths it names: the candidates on the
    page [/foo/bar] have the pathnames [/foo/bar] and [/foo], each with
    its leading slash. *)
Lemma two_segments_paths_keep_slash :
  normalize (get_pathname (window_location page_foo_bar)) = "foo/bar"
  /\ map get_pathname (getPossibleBaseUris page_foo_bar) = ["/foo/bar"; "/foo"]
  /\ map get_pathname (getPossibleBaseUris page_foo_bar) <> ["foo/bar"; "foo"].
Proof. repeat split. discriminate. Qed.

(** C7, amended: when the normalised path of the page is [foo/bar],
    [getPossibleBaseUris] returns two candidates, the first with pathname
    [/foo/bar] and the second with pathname [/foo]. *)
Theorem two_segments_two_candidates (env : Env) :
  normalize (get_pathname (window_location env)) = "foo/bar" ->
  List.length (getPossibleBaseUris env) = 2
  /\ map get_pathname (getPossibleBaseUris env) = ["/foo/bar"; "/foo"].
Proof.
  intros Hn. unfold getPossibleBaseUris.
  set (base := getWindowBaseUriParts env).
  assert (Hpath : get_pathname base = "/foo/bar").
  { unfold get_pathname, base. now rewrite path_getWindowBaseUriParts, Hn. }
  rewrite Hpath. cbn [String.eqb Ascii.eqb Bool.eqb split_slash is_slash slash].
  cbv iota.
  do 3 (rewrite while_parts_cons; cbn [pop removelast join_slash app append]).
  rewrite while_parts_nil. split; reflexivity.
Qed.

Lemma two_segments_two_candidates_witness :
  List.length (getPossibleBaseUris page_foo_bar) = 2
  /\ map get_pathname (getPossibleBaseUris page_foo_bar) = ["/foo/bar"; "/foo"].
Proof. exact (two_segments_two_candidates page_foo_bar eq_refl). Defined.

(** ** isValidOrigin *)

Section ValidatorProperties.

Context {platform : UrlPlatform}.

Lemma isValidOrigin_try_throws (P T : string) :
  throws (new_URLPattern P) \/ throws (new_URL T) ->
  throws (isValidOrigin_try P T).
Proof.
  unfold isValidOrigin_try, throws.
  intros [[m Hm]|[m Hm]]; rewrite Hm; cbn [bind].
  - now exists m.
  - destruct (new_URLPattern P) as [p|m1]; cbn [bind]; [|now exists m1].
    destruct (new_URLPattern_init _) as [q|m2]; cbn [bind]; [|now exists m2].
    now exists m.
Qed.

Lemma isValidOrigin_catch (P T : string) :
  throws (isValidOrigin_try P T) -> isValidOrigin P T = Normal false.
Proof. unfold isValidOrigin. now intros [m ->]. Qed.

(** C1: when the pattern and its port-less variant are constructed, the
    test origin parses to a URL with hostname [localhost] and the
    port-less pattern matches that URL, the validator returns true. *)
Theorem isValidOrigin_localhost (P T : string)
    (allowed portLess : URLPattern) (testUrl : TestURL) :
  new_URLPattern P = Normal allowed ->
  new_URLPattern_init
    (mkInit (pattern_protocol allowed) (pattern_hostname allowed))
    = Normal portLess ->
  new_URL T = Normal testUrl ->
  url_hostname testUrl = "localhost" ->
  pattern_test portLess testUrl = true ->
  isValidOrigin P T = Normal true.
Proof.
  intros HP Hq HT Hhost Htest.
  unfold isValidOrigin, isValidOrigin_try.
  rewrite HP. cbn [bind]. rewrite Hq. cbn [bind]. rewrite HT. cbn [bind].
  now rewrite Hhost, Htest.
Qed.

(** C2: the validator always completes normally with a boolean, and
    that boolean is false whenever constructing the pattern from the
    allowed-origin string, constructing its port-less variant, or
    parsing the test origin throws. *)
Theorem isValidOrigin_never_throws (P T : string) :
  (exists b : bool, isValidOrigin P T = Normal b)
  /\ (throws (new_URLPattern P) -> isValidOrigin P T = Normal false)
  /\ (throws (new_URL T) -> isValidOrigin P T = Normal false)
  /\ (throws (isValidOrigin_try P T) -> isValidOrigin P T = Normal false).
Proof.
  split; [|split; [|split]].
  - unfold isValidOrigin.
    destruct (isValidOrigin_try P T) as [[[p q] u]|m]; [|now exists false].
    destruct (_ && _); eexists; reflexivity.
  - intros H. apply isValidOrigin_catch, isValidOrigin_try_throws. now left.
  - intros H. apply isValidOrigin_catch, isValidOrigin_try_throws. now right.
  - apply isValidOrigin_catch.
Qed.

End ValidatorProperties.

Lemma isValidOrigin_localhost_witness :
  @isValidOrigin RefPlatform.platform "https://localhost" "https://localhost:9999"
  = Normal true.
Proof.
  eapply (@isValidOrigin_localhost RefPlatform.platform
            "https://localhost" "https://localhost:9999");
    reflexivity.
Defined.

Lemma isValidOrigin_never_throws_witness :
  @isValidOrigin RefPlatform.platform "not a valid pattern" "https://example.com"
  = Normal false
  /\ @isValidOrigin RefPlatform.platform "https://example.com" "example.com"
     = Normal false.
Proof.
  split.
  - apply (proj1 (proj2 (@isValidOrigin_never_throws RefPlatform.platform
                           "not a valid pattern" "https://example.com"))).
    eexists. reflexivity.
  - apply (proj1 (proj2 (proj2 (@isValidOrigin_never_throws RefPlatform.platform
                                  "https://example.com" "example.com")))).
    eexists. reflexivity.
Defined.

(** * Further properties *)

(** ** makePath: the shape of the result *)

Lemma normalize_cons_slash (s : string) :
  normalize (String slash s) = normalize s.
Proof.
  unfold normalize. rewrite (replace_FINAL_cons_slash slash s eq_refl).
  destruct (String.eqb_spec (replace_FINAL_SLASH_RE s) "") as [E|E].
  - now rewrite E.
  - reflexivity.
Qed.

Lemma normalize_makePath (a b : string) :
  normalize (makePath a b)
  = if String.eqb (normalize b) "" then normalize a else makePath a b.
Proof.
  destruct (String.eqb_spec (normalize b) "") as [Eb|Eb].
  - rewrite makePath_unfold, Eb.
    destruct (String.eqb_spec (normalize a) "") as [Ea|Ea].
    + now rewrite Ea.
    + change ("/" ++ "") with "/".
      now rewrite normalize_app_slash, normalize_idem.
  - now apply makePath_fixed.
Qed.

(** X1: the result of [makePath] never begins with a slash. *)
Theorem makePath_no_leading_slash (a b : string) :
  starts_slash (makePath a b) = false.
Proof.
  rewrite makePath_unfold.
  destruct (String.eqb_spec (normalize a) "") as [Ea|Ea].
  - apply starts_slash_normalize.
  - rewrite starts_slash_app by exact Ea. apply starts_slash_normalize.
Qed.

(** X2: the result of [makePath] ends with a slash exactly when the base
    path is not empty and the sub-path is empty, both after their slashes
    are stripped. *)
Theorem makePath_trailing_slash (a b : string) :
  ends_slash (makePath a b)
  = negb (String.eqb (normalize a) "") && String.eqb (normalize b) "".
Proof.
  rewrite makePath_unfold.
  destruct (String.eqb_spec (normalize a) "") as [Ea|Ea]; cbn [negb andb].
  - apply ends_slash_normalize.
  - destruct (String.eqb_spec (normalize b) "") as [Eb|Eb].
    + rewrite Eb. now rewrite ends_slash_app by discriminate.
    + rewrite ends_slash_app by discriminate.
      change ("/" ++ normalize b) with (String slash (normalize b)).
      pose proof (ends_slash_normalize b) as H.
      destruct (normalize b); [congruence | exact H].
Qed.

(** X3: joining is associative as long as the last path is not empty
    once its slashes are stripped. *)
Theorem makePath_assoc (a b c : string) :
  normalize c <> "" ->
  makePath (makePath a b) c = makePath a (makePath b c).
Proof.
  intros Hc.
  rewrite (makePath_unfold (makePath a b) c), (makePath_unfold a (makePath b c)).
  rewrite normalize_makePath, (makePath_fixed b c Hc).
  destruct (String.eqb_spec (normalize b) "") as [Eb|Eb].
  - rewrite (makePath_unfold b c), Eb. reflexivity.
  - pose proof (makePath_nonempty a b Eb) as Hne.
    destruct (String.eqb_spec (makePath a b) ""); [contradiction|].
    rewrite (makePath_unfold a b), (makePath_unfold b c).
    destruct (String.eqb_spec (normalize b) ""); [contradiction|].
    destruct (String.eqb_spec (normalize a) "") as [Ea|Ea]; [reflexivity|].
    now rewrite !append_assoc.
Qed.

Lemma makePath_assoc_witness :
  normalize "/stream" <> ""
  /\ makePath (makePath "/app/" "_stcore") "/stream"
     = makePath "/app/" (makePath "_stcore" "/stream").
Proof.
  assert (H : normalize "/stream" <> "") by discriminate.
  exact (conj H (makePath_assoc "/app/" "_stcore" "/stream" H)).
Defined.

(** ** The page's scheme, and the two builders *)

(** X4: [isHttps] holds exactly on a page whose URL has the scheme
    https, whatever its credentials, host, port and path. *)
Theorem isHttps_iff_https_page (env : Env) :
  isHttps env = true <-> scheme (window_location env) = Https.
Proof.
  rewrite isHttps_scheme.
  destruct (scheme (window_location env)); split; congruence.
Qed.

(** X5: for the same base and path the two builders return the same
    string up to the scheme: [ws] in place of [http]. *)
Theorem builders_differ_in_scheme_only (env : Env) (b : URL) (p : string) :
  exists rest : string,
    buildHttpUri env b p = "http" ++ rest
    /\ buildWsUri env b p = "ws" ++ rest.
Proof.
  unfold buildHttpUri, buildWsUri. rewrite isHttps_scheme.
  destruct (scheme (window_location env)); eexists; split; reflexivity.
Qed.

(** ** getWindowBaseUriParts: what it keeps and what it sets *)

Lemma with_path_same (u : URL) : with_path u (path u) = u.
Proof. now destruct u. Qed.

Lemma with_port_same (u : URL) : with_port u (port u) = u.
Proof. now destruct u. Qed.

Lemma set_port_with_path (u : URL) (segs : list string) (value : string) :
  set_port (with_path u segs) value = with_path (set_port u value) segs.
Proof.
  unfold set_port. cbn [scheme with_path].
  destruct (String.eqb value ""); [reflexivity|].
  destruct (String.eqb _ ""); [reflexivity|].
  destruct (N.ltb _ _); reflexivity.
Qed.

Lemma set_port_idem (u : URL) (value : string) :
  set_port (set_port u value) value = set_port u value.
Proof.
  unfold set_port.
  destruct (String.eqb value ""); [reflexivity|].
  destruct (String.eqb _ ""); [reflexivity|].
  destruct (N.ltb _ _); reflexivity.
Qed.

Lemma string_of_N_nonempty (n : N) : string_of_N n <> "".
Proof.
  unfold string_of_N.
  assert (H : N.to_uint n <> Decimal.Nil).
  { destruct n as [|p]; [discriminate | apply DecimalPos.Unsigned.to_uint_nonnil]. }
  destruct (N.to_uint n); [contradiction | discriminate ..].
Qed.

Lemma digits_not_tab_or_newline (s : string) :
  digits_prefix s = s -> remove_tab_newline s = s.
Proof.
  induction s as [|c r IH]; [reflexivity|].
  cbn [digits_prefix remove_tab_newline].
  destruct (is_digit c) eqn:Ec; [|discriminate].
  intros H. injection H as H. rewrite (IH H).
  assert (Ht : is_tab_or_newline c = false).
  { unfold is_digit in Ec. unfold is_tab_or_newline.
    apply andb_prop in Ec as [Ec _]. apply N.leb_le in Ec.
    repeat (apply orb_false_iff; split); apply N.eqb_neq; lia. }
  now rewrite Ht.
Qed.

(** X6: the URL [getWindowBaseUriParts] returns has the scheme, the
    credentials, the host, the query and the fragment of the page's URL;
    only the port and the path can differ. *)
Theorem base_keeps_origin_parts (env : Env) :
  scheme (getWindowBaseUriParts env) = scheme (window_location env)
  /\ get_hostname (getWindowBaseUriParts env)
     = get_hostname (window_location env)
  /\ username (getWindowBaseUriParts env) = username (window_location env)
  /\ password (getWindowBaseUriParts env) = password (window_location env)
  /\ query (getWindowBaseUriParts env) = query (window_location env)
  /\ fragment (getWindowBaseUriParts env) = fragment (window_location env).
Proof.
  unfold getWindowBaseUriParts, new_URL_of_location, get_hostname.
  set (loc := window_location env).
  assert (H : forall v, exists p, set_port loc v = with_port loc p)
    by (intros v; apply set_port_same_but_port).
  destruct (IS_DEV_ENV env); [|destruct (String.eqb (get_port loc) "")].
  - destruct (H (WEBSOCKET_PORT_DEV env)) as [p ->]. cbn. tauto.
  - destruct (H (if isHttps env then "443" else "80")) as [p ->]. cbn. tauto.
  - cbn. tauto.
Qed.

(** X7: in production, a port the page's URL spells out is the port of
    the returned URL. *)
Theorem production_keeps_explicit_port (env : Env) (n : N) :
  IS_DEV_ENV env = false ->
  port (window_location env) = Some n ->
  port (getWindowBaseUriParts env) = Some n
  /\ get_port (getWindowBaseUriParts env) = get_port (window_location env).
Proof.
  intros Hdev Hport.
  assert (E : String.eqb (get_port (window_location env)) "" = false).
  { unfold get_port. rewrite Hport. apply String.eqb_neq, string_of_N_nonempty. }
  unfold getWindowBaseUriParts, new_URL_of_location.
  rewrite Hdev, E. unfold get_port. cbn [port set_pathname with_path].
  now rewrite Hport.
Qed.

Lemma production_keeps_explicit_port_witness :
  get_port (getWindowBaseUriParts page_root) = "9988".
Proof.
  exact (proj2 (production_keeps_explicit_port page_root 9988 eq_refl eq_refl)).
Defined.

(** X8: in development the port of the returned URL is the number
    [WEBSOCKET_PORT_DEV] spells (null when that is the scheme's default
    port), whatever port the page's URL has. *)
Theorem development_port_is_dev_port (env : Env) :
  IS_DEV_ENV env = true ->
  WEBSOCKET_PORT_DEV env <> "" ->
  digits_prefix (WEBSOCKET_PORT_DEV env) = WEBSOCKET_PORT_DEV env ->
  (N_of_digits (WEBSOCKET_PORT_DEV env) 0 <= 65535)%N ->
  port (getWindowBaseUriParts env)
  = if N.eqb (N_of_digits (WEBSOCKET_PORT_DEV env) 0)
             (default_port (scheme (window_location env)))
    then None else Some (N_of_digits (WEBSOCKET_PORT_DEV env) 0).
Proof.
  intros Hdev Hne Hdigits Hle.
  unfold getWindowBaseUriParts, new_URL_of_location.
  rewrite Hdev. cbn [port set_pathname with_path]. unfold set_port.
  rewrite (digits_not_tab_or_newline _ Hdigits), Hdigits.
  apply String.eqb_neq in Hne. rewrite Hne.
  apply N.ltb_ge in Hle. rewrite Hle. reflexivity.
Qed.

Lemma development_port_is_dev_port_witness :
  port (getWindowBaseUriParts
          (development (page Http "localhost" (Some 3000%N) ["foo"])))
  = Some 8501%N.
Proof.
  refine (development_port_is_dev_port
            (development (page Http "localhost" (Some 3000%N) ["foo"]))
            eq_refl _ eq_refl _).
  - discriminate.
  - vm_compute. discriminate.
Defined.

Lemma get_pathname_base_ok (env : Env) :
  path_ok (window_location env) = true ->
  get_pathname (getWindowBaseUriParts env)
  = String slash (normalize (get_pathname (window_location env))).
Proof.
  intros Hok. unfold get_pathname at 1.
  rewrite (path_getWindowBaseUriParts_ok env Hok).
  rewrite serialize_path_join by apply split_slash_nonnil.
  now rewrite join_split.
Qed.

Lemma renormalize_base (env : Env) :
  path_ok (window_location env) = true ->
  set_pathname (getWindowBaseUriParts env)
    (normalize (get_pathname (getWindowBaseUriParts env)))
  = getWindowBaseUriParts env.
Proof.
  intros Hok.
  rewrite (get_pathname_base_ok env Hok), normalize_cons_slash, normalize_idem.
  rewrite set_pathname_ok.
  - rewrite <- (path_getWindowBaseUriParts_ok env Hok). apply with_path_same.
  - apply clean_path_normalize, clean_path_pathname, Hok.
  - apply starts_slash_normalize.
Qed.

Lemma readjust_port_base (env : Env) :
  let base := getWindowBaseUriParts env in
  let env' := mkEnv base (IS_DEV_ENV env) (WEBSOCKET_PORT_DEV env) in
  (if IS_DEV_ENV env then set_port base (WEBSOCKET_PORT_DEV env)
   else if String.eqb (get_port base) "" then
     set_port base (if isHttps env' then "443" else "80")
   else base) = base.
Proof.
  cbv zeta. rewrite (isHttps_scheme (mkEnv _ _ _)). cbn [window_location].
  unfold getWindowBaseUriParts, new_URL_of_location, set_pathname.
  set (loc := window_location env).
  destruct (IS_DEV_ENV env).
  - now rewrite set_port_with_path, set_port_idem.
  - rewrite isHttps_scheme. fold loc.
    destruct (String.eqb (get_port loc) "") eqn:E.
    + cbn [scheme with_path]. rewrite scheme_set_port.
      pose proof (set_port_default loc) as Hd.
      unfold get_port at 1. cbn [port with_path].
      destruct (scheme loc); rewrite Hd; cbn [String.eqb];
        now rewrite set_port_with_path, set_port_idem.
    + unfold get_port in *. cbn [port with_path]. now rewrite E.
Qed.

(** X9: [getWindowBaseUriParts] is idempotent: on a page whose URL is
    a URL it returned, it returns that URL again. *)
Theorem getWindowBaseUriParts_idempotent (env : Env) :
  path_ok (window_location env) = true ->
  getWindowBaseUriParts
    (mkEnv (getWindowBaseUriParts env) (IS_DEV_ENV env) (WEBSOCKET_PORT_DEV env))
  = getWindowBaseUriParts env.
Proof.
  intros Hok. unfold getWindowBaseUriParts at 1.
  cbn [window_location IS_DEV_ENV WEBSOCKET_PORT_DEV].
  unfold new_URL_of_location. cbn [window_location].
  pose proof (readjust_port_base env) as Hadj. cbv zeta in Hadj.
  rewrite Hadj. apply (renormalize_base env Hok).
Qed.

Lemma getWindowBaseUriParts_idempotent_witness :
  getWindowBaseUriParts
    (mkEnv (getWindowBaseUriParts
              (production (page Https "the_host" None [""; "foo"; "bar"; ""])))
           false "8501")
  = getWindowBaseUriParts
      (production (page Https "the_host" None [""; "foo"; "bar"; ""])).
Proof.
  exact (getWindowBaseUriParts_idempotent
           (production (page Https "the_host" None [""; "foo"; "bar"; ""]))
           eq_refl).
Defined.

(** ** getPossibleBaseUris: the candidates in general *)

Section Candidates.

Lemma while_parts_acc_bounded (base : URL) (n : nat) :
  forall (parts : list string) (acc : list URL),
    List.length parts <= n ->
    while_parts base parts acc = (acc ++ while_parts base parts [])%list.
Proof.
  induction n as [|n IH]; intros parts acc Hlen.
  - destruct parts; [|cbn in Hlen; lia].
    now rewrite !while_parts_nil, app_nil_r.
  - destruct parts as [|p ps]; [now rewrite !while_parts_nil, app_nil_r|].
    rewrite !while_parts_cons.
    assert (Hpop : List.length (pop (p :: ps)) <= n)
      by (rewrite length_pop; cbn in Hlen; lia).
    rewrite (IH _ (acc ++ _)%list Hpop), (IH _ ([] ++ _)%list Hpop).
    now rewrite <- app_assoc.
Qed.

(** What the loop has pushed stays at the front of its result. *)
Lemma while_parts_acc (base : URL) (parts : list string) (acc : list URL) :
  while_parts base parts acc = (acc ++ while_parts base parts [])%list.
Proof. now apply (while_parts_acc_bounded base (List.length parts)). Qed.

Lemma pop_cons (a : string) (l : list string) :
  l <> [] -> pop (a :: l) = a :: pop l.
Proof. destruct l; [congruence | reflexivity]. Qed.

Lemma join_cons (a : string) (l : list string) :
  l <> [] -> join_slash (a :: l) = a ++ String slash (join_slash l).
Proof. destruct l; [congruence | reflexivity]. Qed.

Lemma join_cons_empty (l : list string) :
  l <> [] -> join_slash ("" :: l) = String slash (join_slash l).
Proof. intros H. now rewrite join_cons. Qed.

Lemma forallb_pop (P : string -> bool) (l : list string) :
  forallb P l = true -> forallb P (pop l) = true.
Proof.
  unfold pop. induction l as [|a l IH]; [reflexivity|].
  cbn [forallb removelast]. intros H. apply andb_prop in H as [Ha Hl].
  destruct l; [reflexivity|]. cbn [forallb] in *. now rewrite Ha, IH.
Qed.

Lemma split_join (l : list string) :
  l <> [] -> forallb segment_ok l = true -> split_slash (join_slash l) = l.
Proof.
  induction l as [|a l IH]; [congruence|]. intros _ H.
  cbn [forallb] in H. apply andb_prop in H as [Ha Hl].
  assert (Hns : no_slash a = true)
    by now apply all_plain_no_slash, segment_ok_plain.
  destruct l as [|b l].
  - now apply split_slash_no_slash.
  - rewrite join_cons by discriminate.
    rewrite (split_slash_app_slash a _ Hns).
    now rewrite IH by (discriminate || exact Hl).
Qed.

Lemma path_chars_join (l : list string) :
  forallb segment_ok l = true -> path_chars (join_slash l) = true.
Proof.
  induction l as [|a l IH]; [reflexivity|]. intros H.
  cbn [forallb] in H. apply andb_prop in H as [Ha Hl].
  assert (Hpa : path_chars a = true)
    by now apply all_plain_path_chars, segment_ok_plain.
  destruct l as [|b l]; [exact Hpa|].
  rewrite join_cons by discriminate.
  rewrite path_chars_app, Hpa. cbn [path_chars andb].
  change (is_slash slash) with true. cbn [orb andb]. now apply IH.
Qed.

Lemma clean_path_join (l : list string) :
  l <> [] -> forallb segment_ok l = true -> clean_path (join_slash l).
Proof.
  intros Hne H. split; [now apply path_chars_join|].
  now rewrite split_join.
Qed.

Lemma length_app_string (x y : string) :
  String.length (x ++ y) = String.length x + String.length y.
Proof. induction x as [|c r IH]; cbn; [reflexivity | now rewrite IH]. Qed.

Lemma length_join_pop (l : list string) :
  join_slash l <> "" ->
  String.length (join_slash (pop l)) < String.length (join_slash l).
Proof.
  induction l as [|a l IH]; [intros H; exfalso; now apply H|]. intros Hne.
  destruct l as [|b l].
  - destruct a; [exfalso; now apply Hne | cbn; lia].
  - rewrite (pop_cons a (b :: l)) by discriminate.
    rewrite (join_cons a (b :: l)) by discriminate.
    rewrite length_app_string. cbn [String.length].
    destruct l as [|c l].
    + cbn. lia.
    + assert (Hb : join_slash (b :: c :: l) <> "").
      { rewrite join_cons by discriminate. destruct b; discriminate. }
      specialize (IH Hb).
      rewrite join_cons by (rewrite pop_cons by discriminate; discriminate).
      rewrite length_app_string. cbn [String.length]. lia.
Qed.

(** On a page that is not a root page the candidates are the base URL
    and the URL whose path is the base URL's path without its last
    segment. *)
Lemma candidates_ok (env : Env) :
  path_ok (window_location env) = true ->
  normalize (get_pathname (window_location env)) <> "" ->
  exists c2 : URL,
    getPossibleBaseUris env = [getWindowBaseUriParts env; c2]
    /\ get_pathname c2
       = String slash (join_slash (pop (path (getWindowBaseUriParts env))))
    /\ get_pathname c2 <> get_pathname (getWindowBaseUriParts env).
Proof.
  intros Hok Hne.
  set (base := getWindowBaseUriParts env).
  set (s := normalize (get_pathname (window_location env))) in *.
  assert (Hclean : clean_path s)
    by now apply clean_path_normalize, clean_path_pathname.
  assert (Hpath : path base = split_slash s)
    by now apply path_getWindowBaseUriParts_ok.
  assert (Hpn : get_pathname base = String slash s)
    by now apply get_pathname_base_ok.
  pose proof (split_slash_nonnil s) as Hsegs.
  unfold getPossibleBaseUris. fold base. rewrite Hpn.
  assert (Hroot : String.eqb (String slash s) "/" = false)
    by (destruct s; [congruence | reflexivity]).
  rewrite Hroot, (split_slash_cons_slash slash s eq_refl).
  rewrite while_parts_cons, (join_cons_empty _ Hsegs), join_split.
  unfold new_URL_of. rewrite (set_pathname_slash_ok base s Hclean).
  assert (Hpb : path base <> []) by now rewrite Hpath.
  rewrite <- Hpath, with_path_same, (pop_cons "" _ Hpb).
  rewrite while_parts_cons, while_parts_acc. unfold new_URL_of.
  exists (set_pathname base (join_slash ("" :: pop (path base)))).
  split; [reflexivity|].
  assert (Hc2 : get_pathname (set_pathname base (join_slash ("" :: pop (path base))))
                = String slash (join_slash (pop (path base)))).
  { destruct (pop (path base)) as [|h t] eqn:E; [reflexivity|].
    assert (Hl : forallb segment_ok (h :: t) = true).
    { rewrite <- E. apply forallb_pop. rewrite Hpath. exact (proj2 Hclean). }
    rewrite join_cons_empty by discriminate.
    rewrite set_pathname_slash_ok by (apply clean_path_join; [discriminate | exact Hl]).
    apply get_pathname_with_path_split. }
  split; [exact Hc2|].
  rewrite Hc2. intros Heq.
  assert (Heq' : join_slash (pop (path base)) = s) by congruence.
  assert (Hlt : String.length (join_slash (pop (path base)))
                < String.length (join_slash (path base))).
  { apply length_join_pop. now rewrite Hpath, join_split. }
  rewrite Heq', Hpath, join_split in Hlt. lia.
Qed.

End Candidates.

(** X10: there is always a first candidate and never a third one; the
    list has one candidate exactly when the pathname of the base URL is
    the root path. *)
Theorem candidates_one_or_two (env : Env) :
  1 <= List.length (getPossibleBaseUris env) <= 2
  /\ (List.length (getPossibleBaseUris env) = 1
      <-> get_pathname (getWindowBaseUriParts env) = "/").
Proof.
  rewrite candidates_count.
  destruct (String.eqb_spec (get_pathname (getWindowBaseUriParts env)) "/").
  - split; [lia | tauto].
  - split; [lia|]. split; [discriminate | contradiction].
Qed.

(** X11: on a page whose path is made of slashes only, the one candidate
    is the URL [getWindowBaseUriParts] returns, and its pathname is the
    root path. *)
Theorem root_page_candidate (env : Env) :
  normalize (get_pathname (window_location env)) = "" ->
  getPossibleBaseUris env = [getWindowBaseUriParts env]
  /\ get_pathname (getWindowBaseUriParts env) = "/".
Proof.
  intros Hn.
  assert (Hpn : get_pathname (getWindowBaseUriParts env) = "/").
  { unfold get_pathname. now rewrite path_getWindowBaseUriParts, Hn. }
  split; [|exact Hpn].
  unfold getPossibleBaseUris. now rewrite Hpn.
Qed.

Lemma root_page_candidate_witness :
  getPossibleBaseUris (production (page Https "the_host" None [""; ""; ""]))
  = [getWindowBaseUriParts (production (page Https "the_host" None [""; ""; ""]))]
  /\ get_pathname
       (getWindowBaseUriParts (production (page Https "the_host" None [""; ""; ""])))
     = "/".
Proof.
  exact (root_page_candidate
           (production (page Https "the_host" None [""; ""; ""])) eq_refl).
Defined.

(** X12: on any other page the first candidate is the URL
    [getWindowBaseUriParts] returns, and the pathname of the second is
    that URL's path without its last segment (the root path when it has
    one segment). *)
Theorem other_page_candidates (env : Env) :
  path_ok (window_location env) = true ->
  normalize (get_pathname (window_location env)) <> "" ->
  exists c2 : URL,
    getPossibleBaseUris env = [getWindowBaseUriParts env; c2]
    /\ get_pathname c2
       = String slash (join_slash (pop (path (getWindowBaseUriParts env)))).
Proof.
  intros Hok Hne. destruct (candidates_ok env Hok Hne) as (c2 & H1 & H2 & _).
  now exists c2.
Qed.

Lemma other_page_candidates_witness :
  exists c2 : URL,
    getPossibleBaseUris
      (production (page Http "the_host" None ["foo"; "bar"; "baz"; "qux"; ""]))
    = [getWindowBaseUriParts
         (production (page Http "the_host" None ["foo"; "bar"; "baz"; "qux"; ""]));
       c2]
    /\ get_pathname c2 = "/foo/bar/baz".
Proof.
  refine (other_page_candidates
            (production (page Http "the_host" None ["foo"; "bar"; "baz"; "qux"; ""]))
            eq_refl _).
  discriminate.
Defined.

(** X13: the two candidates of a page that is not a root page have
    different pathnames. *)
Theorem candidates_distinct (env : Env) :
  path_ok (window_location env) = true ->
  normalize (get_pathname (window_location env)) <> "" ->
  exists c1 c2 : URL,
    getPossibleBaseUris env = [c1; c2]
    /\ get_pathname c1 <> get_pathname c2.
Proof.
  intros Hok Hne. destruct (candidates_ok env Hok Hne) as (c2 & H1 & _ & H3).
  exists (getWindowBaseUriParts env), c2. split; [exact H1|]. congruence.
Qed.

Lemma candidates_distinct_witness :
  exists c1 c2 : URL,
    getPossibleBaseUris page_foo = [c1; c2]
    /\ get_pathname c1 <> get_pathname c2.
Proof.
  refine (candidates_distinct page_foo eq_refl _). discriminate.
Defined.

(** ** Building addresses from the base URL *)

Lemma makePath_cons_slash (s p : string) :
  makePath (String slash s) p = makePath s p.
Proof. now rewrite !makePath_unfold, normalize_cons_slash. Qed.

Lemma makePath_normalize_base (s p : string) :
  makePath (normalize s) p = makePath s p.
Proof. now rewrite !makePath_unfold, normalize_idem. Qed.

Lemma host_getWindowBaseUriParts (env : Env) :
  host (getWindowBaseUriParts env) = host (window_location env).
Proof.
  unfold getWindowBaseUriParts, new_URL_of_location.
  set (loc := window_location env).
  assert (H : forall v, exists p, set_port loc v = with_port loc p)
    by (intros v; apply set_port_same_but_port).
  destruct (IS_DEV_ENV env); [|destruct (String.eqb (get_port loc) "")].
  - now destruct (H (WEBSOCKET_PORT_DEV env)) as [p ->].
  - now destruct (H (if isHttps env then "443" else "80")) as [p ->].
  - reflexivity.
Qed.

(** X14: the addresses built from the URL [getWindowBaseUriParts]
    returns carry the page's host and the join of the page's own
    pathname with the path: the slashes around the page's pathname, and
    the one the URL object puts back, leave no trace. *)
Theorem build_from_base (env : Env) (p : string) :
  path_ok (window_location env) = true ->
  buildWsUri env (getWindowBaseUriParts env) p
  = ws_scheme (scheme (window_location env)) ++ "://"
    ++ get_hostname (window_location env) ++ ":"
    ++ get_port (getWindowBaseUriParts env) ++ "/"
    ++ makePath (get_pathname (window_location env)) p
  /\ buildHttpUri env (getWindowBaseUriParts env) p
  = http_scheme (scheme (window_location env)) ++ "://"
    ++ get_hostname (window_location env) ++ ":"
    ++ get_port (getWindowBaseUriParts env) ++ "/"
    ++ makePath (get_pathname (window_location env)) p.
Proof.
  intros Hok. unfold buildWsUri, buildHttpUri, get_hostname.
  rewrite isHttps_scheme, host_getWindowBaseUriParts.
  rewrite (get_pathname_base_ok env Hok), makePath_cons_slash,
    makePath_normalize_base.
  destruct (scheme (window_location env)); split; reflexivity.
Qed.

Lemma build_from_base_witness :
  buildHttpUri page_root (getWindowBaseUriParts page_root) "/_stcore/health"
  = "http://the_host:9988/_stcore/health".
Proof. exact (proj2 (build_from_base page_root "/_stcore/health" eq_refl)). Defined.

(** ** isValidOrigin: when it accepts *)

Section ValidatorAccepts.

Context {platform : UrlPlatform}.

Lemma isValidOrigin_constructed (P T : string)
    (allowed portLess : URLPattern) (testUrl : TestURL) :
  new_URLPattern P = Normal allowed ->
  new_URLPattern_init
    (mkInit (pattern_protocol allowed) (pattern_hostname allowed))
    = Normal portLess ->
  new_URL T = Normal testUrl ->
  isValidOrigin P T
  = Normal ((String.eqb (url_hostname testUrl) "localhost"
             && pattern_test portLess testUrl)
            || pattern_test allowed testUrl).
Proof.
  intros HP Hq HT. unfold isValidOrigin, isValidOrigin_try.
  rewrite HP. cbn [bind]. rewrite Hq. cbn [bind]. rewrite HT. cbn [bind].
  now destruct (_ && _).
Qed.

(** X15: the validator accepts exactly when the pattern, its port-less
    variant and the test URL are all constructed and either the full
    pattern matches the URL, or the URL's hostname is [localhost] and the
    port-less pattern matches it. *)
Theorem isValidOrigin_accepts_iff (P T : string) :
  isValidOrigin P T = Normal true
  <-> exists (allowed portLess : URLPattern) (testUrl : TestURL),
        new_URLPattern P = Normal allowed
        /\ new_URLPattern_init
             (mkInit (pattern_protocol allowed) (pattern_hostname allowed))
           = Normal portLess
        /\ new_URL T = Normal testUrl
        /\ (pattern_test allowed testUrl = true
            \/ (url_hostname testUrl = "localhost"
                /\ pattern_test portLess testUrl = true)).
Proof.
  split.
  - intros H.
    destruct (new_URLPattern P) as [p|m] eqn:HP;
      [|unfold isValidOrigin, isValidOrigin_try in H; rewrite HP in H;
        discriminate H].
    destruct (new_URLPattern_init
                (mkInit (pattern_protocol p) (pattern_hostname p)))
      as [q|m] eqn:Hq;
      [|unfold isValidOrigin, isValidOrigin_try in H; rewrite HP in H;
        cbn [bind] in H; rewrite Hq in H; discriminate H].
    destruct (new_URL T) as [u|m] eqn:HT;
      [|unfold isValidOrigin, isValidOrigin_try in H; rewrite HP in H;
        cbn [bind] in H; rewrite Hq in H; cbn [bind] in H; rewrite HT in H;
        discriminate H].
    rewrite (isValidOrigin_constructed P T p q u HP Hq HT) in H.
    injection H as H. exists p, q, u. repeat split; try assumption.
    apply orb_prop in H as [H|H]; [right | now left].
    apply andb_prop in H as [Hh Ht]. split; [now apply String.eqb_eq | exact Ht].
  - intros (p & q & u & HP & Hq & HT & Hm).
    rewrite (isValidOrigin_constructed P T p q u HP Hq HT). f_equal.
    destruct Hm as [Hm|[Hh Hm]].
    + rewrite Hm. apply orb_true_r.
    + apply String.eqb_eq in Hh. now rewrite Hh, Hm.
Qed.

(** X16: for a test URL whose hostname is not [localhost] the validator
    returns what the full pattern's test returns: the port-less pattern
    plays no part. *)
Theorem isValidOrigin_not_localhost (P T : string)
    (allowed portLess : URLPattern) (testUrl : TestURL) :
  new_URLPattern P = Normal allowed ->
  new_URLPattern_init
    (mkInit (pattern_protocol allowed) (pattern_hostname allowed))
    = Normal portLess ->
  new_URL T = Normal testUrl ->
  url_hostname testUrl <> "localhost" ->
  isValidOrigin P T = Normal (pattern_test allowed testUrl).
Proof.
  intros HP Hq HT Hh.
  rewrite (isValidOrigin_constructed P T allowed portLess testUrl HP Hq HT).
  apply String.eqb_neq in Hh. now rewrite Hh.
Qed.

End ValidatorAccepts.

Lemma isValidOrigin_not_localhost_witness :
  @isValidOrigin RefPlatform.platform
    "https://example.com:8501" "https://example.com:9999"
  = Normal false.
Proof.
  refine (@isValidOrigin_not_localhost RefPlatform.platform
            "https://example.com:8501" "https://example.com:9999"
            (RefPlatform.mkPattern "https" "example.com" "8501")
            (RefPlatform.mkPattern "https" "example.com" "*")
            (mkURL Https "" "" "example.com" (Some 9999%N) [""]%list None None)
            eq_refl eq_refl eq_refl _).
  discriminate.
Defined.
